(** * ExternalCallback: the user-callback external field of HPMC

    A shallow embedding of [hoomd/hpmc/ExternalCallback.h] and the
    properties of its acceptance protocol: the two-level null check of
    [getEnergy], the Boltzmann ratio of a single-particle move
    ([boltzmann], [accept]), of a box move ([calculateBoltzmannFactor])
    and the weight of the current configuration
    ([calculateBoltzmannWeight]). *)

From Stdlib Require Import ZArith Floats Lia String.
From stdpp Require Import gmap list.

Set Default Proof Using "Type".

(** ** Scalars *)

(** Modelled from the spec: the typedef of [Scalar] (HOOMDMath.h) is not
    among the sources; the energy is a "real scalar" computed "within
    floating-point tolerance", taken here as IEEE 754 binary64 ([double],
    HOOMD's default precision), whose operations the kernel computes and
    [FloatAxioms] specifies. *)
Definition Scalar : Type := float.

(** ** Data model *)

(** Modelled from the spec: [Scalar4], [vec3] and [quat] (VectorMath.h)
    are not among the sources; a position is a "3-vector", an orientation
    a "quaternion" (a scalar and a 3-vector), and a [Scalar4] is four
    scalars.  How a [Scalar4] converts to either is left to [HoomdOps]. *)
Record Scalar4 : Type := make_scalar4
  { s4_x : Scalar; s4_y : Scalar; s4_z : Scalar; s4_w : Scalar }.

Record vec3 : Type := make_vec3
  { vec3_x : Scalar; vec3_y : Scalar; vec3_z : Scalar }.

Record quat : Type := make_quat { quat_s : Scalar; quat_v : vec3 }.

(** The types the header only passes around: the simulation box, the
    members of a snapshot it never reads or writes, the state of the
    embedded Python interpreter and the state of a Saru random stream. *)
Class HoomdTypes : Type :=
  { BoxDim : Type;
    ParticleFields : Type;
    SystemFields : Type;
    Interpreter : Type;
    Saru : Type }.

(** [template <class Shape>]: a shape is any type with an [orientation]. *)
Module Shape.
Class ops (S : Type) : Type := { orientation : S -> quat }.
End Shape.

Section DataModel.
Context {hoomd_types : HoomdTypes}.

(** Modelled from the spec: [SnapshotParticleData] (its header is not
    among the sources) with the two per-particle arrays that
    ExternalCallback.h writes, [pos] and [orientation], "an ordered
    sequence of per-particle position and orientation", and its other
    members kept together. *)
Record SnapshotParticleData : Type := make_particle_data
  { pos : list vec3;
    orientation : list quat;
    particle_fields : ParticleFields }.

(** Modelled from the spec: [SnapshotSystemData] (SnapshotSystemData.h
    is not among the sources): "a tag->index map", the particle data and
    "the global simulation box", under the member names that
    ExternalCallback.h uses, and its other members kept together. *)
Record SnapshotSystemData : Type := make_snapshot
  { global_box : BoxDim;
    particle_data : SnapshotParticleData;
    map : gmap nat nat;
    system_fields : SystemFields }.

(** Modelled from the spec: the live particle store behind [m_pdata] and
    [m_sysdef] (ParticleData.h is not among the sources): the number of
    local particles, "the live tag array", and the live positions,
    orientations and box. *)
Record ParticleData : Type := make_pdata
  { getN : nat;
    getTags : list nat;
    getPositions : list Scalar4;
    getOrientationArray : list Scalar4;
    getGlobalBox : BoxDim }.

(** What a call can change: the live store and the interpreter. *)
Record World : Type := make_world
  { m_pdata : ParticleData;
    interp : Interpreter }.

(** A [pybind11::object]: [None], a float, a string (a value that does
    not convert to a number), or a callable.  A callable is given the
    snapshot by reference and may change it and the interpreter's
    state; it returns an object or raises ([None] of [option]). *)
#[warnings="-register-all"]
Inductive object : Type :=
| none
| py_float (value : Scalar)
| py_str (text : string)
| py_function
    (code : SnapshotSystemData -> Interpreter ->
            option (object * SnapshotSystemData * Interpreter)).

End DataModel.

(** The operations of the collaborators: libm's [exp], the conversions of
    VectorMath.h, [Saru::s] and [SystemDefinition::takeSnapshot]; and the
    one setting of the build that the header depends on, whether [NDEBUG]
    is defined, which turns every [assert] into nothing. *)
Class HoomdOps {hoomd_types : HoomdTypes} : Type :=
  { NDEBUG : bool;
    exp : Scalar -> Scalar;
    vec3_of_Scalar4 : Scalar4 -> vec3;
    quat_of_Scalar4 : Scalar4 -> quat;
    Saru_s : Scalar -> Scalar -> Saru -> Scalar * Saru;
    SystemDefinition_takeSnapshot : ParticleData -> SnapshotSystemData }.

(** ** Outcomes and the monad of a member function *)

(** How a call can stop in a way the language defines: a failed [assert]
    (the program aborts), or a C++ exception coming from pybind11 (a
    Python exception, or a failed cast). *)
Inductive Fault : Type := AssertionFailed | PythonError.

(** What a call does: it returns, it stops with a fault, or its behaviour
    is undefined.  [Undefined] stands for the executions on which C++
    places no requirement (an access outside an array, the dereference of
    [end()]): the program may crash there, or go on and return any value.
    It is kept apart from the faults so that no statement takes it for
    an orderly stop; what is said about the source is said by an [Ok] or
    an [Err] outcome. *)
Inductive Result (A : Type) : Type :=
| Ok (a : A)
| Err (f : Fault)
| Undefined.
Arguments Ok {A} a.
Arguments Err {A} f.
Arguments Undefined {A}.

Definition Result_bind {A B} (r : Result A) (k : A -> Result B) : Result B :=
  match r with
  | Ok a => k a
  | Err f => Err f
  | Undefined => Undefined
  end.

Section Monad.
Context {hoomd_types : HoomdTypes}.

Definition M (A : Type) : Type := World -> Result (A * World).

Definition ret {A} (a : A) : M A := fun w => Ok (a, w).

Definition bind {A B} (m : M A) (k : A -> M B) : M B :=
  fun w => match m w with
           | Ok (a, w') => k a w'
           | Err f => Err f
           | Undefined => Undefined
           end.

Definition lift {A} (r : Result A) : M A :=
  fun w => match r with
           | Ok a => Ok (a, w)
           | Err f => Err f
           | Undefined => Undefined
           end.

Definition get_pdata : M ParticleData := fun w => Ok (m_pdata w, w).

End Monad.

Declare Scope hpmc_scope.
Delimit Scope hpmc_scope with hpmc.
Notation "'let!' x ':=' c 'in' k" := (bind c (fun x => k))
  (at level 10, x pattern, c at level 100, k at level 200) : hpmc_scope.
Open Scope hpmc_scope.

(** ** The member functions of [ExternalCallback<Shape>] *)

Section ExternalCallback.
Context {hoomd_types : HoomdTypes} {hoomd_ops : HoomdOps}.
Context {Shape : Type} {shape_ops : Shape.ops Shape}.

(** The member [callback], fixed when the field is constructed. *)
Variable callback : object.

(** [o != pybind11::none()] compares with the [None] singleton. *)
Definition is_none (o : object) : bool :=
  match o with
  | none => true
  | _ => false
  end.

(** [callback(snap)]: the call of a Python object.  An object that is
    not callable raises, as does a callable that raises. *)
Definition call (f : object) (snap : SnapshotSystemData)
  : M (object * SnapshotSystemData) :=
  fun w =>
    match f with
    | py_function code =>
        match code snap (interp w) with
        | Some (rv, snap', i') =>
            Ok ((rv, snap'), make_world (m_pdata w) i')
        | None => Err PythonError
        end
    | _ => Err PythonError
    end.

(** [pybind11::cast<Scalar>(rv)]. *)
Definition cast_Scalar (rv : object) : Result Scalar :=
  match rv with
  | py_float value => Ok value
  | _ => Err PythonError
  end.

(** [takeSnapshot()]: a snapshot of the particle data. *)
Definition takeSnapshot : M SnapshotSystemData :=
  fun w => Ok (SystemDefinition_takeSnapshot (m_pdata w), w).

(** [getEnergy(snap)].  The snapshot is handed to Python by reference,
    so the snapshot as the call leaves it is returned with the energy. *)
Definition getEnergy (snap : SnapshotSystemData)
  : M (Scalar * SnapshotSystemData) :=
  let e := 0%float in
  if negb (is_none callback) then
    let! (rv, snap) := call callback snap in
    if negb (is_none rv) then
      let! e := lift (cast_Scalar rv) in
      ret (e, snap)
    else ret (e, snap)
  else ret (e, snap).

(** [calculateBoltzmannWeight(timestep)]. *)
Definition calculateBoltzmannWeight (timestep : nat) : M Scalar :=
  let! snap := takeSnapshot in
  let! (energy, _) := getEnergy snap in
  ret (exp (- energy)%float).

(** [a[i]] on a C array: the read is unchecked, and undefined outside
    the array. *)
Definition at_index {A} (a : list A) (i : nat) : Result A :=
  match a !! i with
  | Some x => Ok x
  | None => Undefined
  end.

(** [snap->map.find(tag)], the [assert] that it is not [end()], and
    [snap_it->second].  The [assert] is the only guard: without [NDEBUG]
    an absent tag aborts there; with [NDEBUG] it is compiled out, and
    [snap_it->second] dereferences [end()]. *)
Definition map_find (snap : SnapshotSystemData) (tag : nat) : Result nat :=
  match map snap !! tag with
  | Some snap_idx => Ok snap_idx
  | None => if NDEBUG then Undefined else Err AssertionFailed
  end.

(** [snap->particle_data.pos[snap_idx] = p]: [operator[]] of a
    [std::vector] is unchecked, and undefined outside the vector. *)
Definition set_pos (snap : SnapshotSystemData) (snap_idx : nat) (p : vec3)
  : Result SnapshotSystemData :=
  let pd := particle_data snap in
  if decide (snap_idx < length (pos pd)) then
    Ok (make_snapshot (global_box snap)
          (make_particle_data (<[snap_idx := p]> (pos pd))
             (orientation pd) (particle_fields pd))
          (map snap) (system_fields snap))
  else Undefined.

(** [snap->particle_data.orientation[snap_idx] = q], unchecked as well. *)
Definition set_orientation (snap : SnapshotSystemData) (snap_idx : nat)
    (q : quat) : Result SnapshotSystemData :=
  let pd := particle_data snap in
  if decide (snap_idx < length (orientation pd)) then
    Ok (make_snapshot (global_box snap)
          (make_particle_data (pos pd)
             (<[snap_idx := q]> (orientation pd)) (particle_fields pd))
          (map snap) (system_fields snap))
  else Undefined.

(** [snap->global_box = *box_old_arg]. *)
Definition set_global_box (snap : SnapshotSystemData) (box : BoxDim)
  : SnapshotSystemData :=
  make_snapshot box (particle_data snap) (map snap) (system_fields snap).

(** [for (unsigned int i = 0; i < N; ++i) body], over a snapshot. *)
Fixpoint for_each (idx : list nat)
    (body : nat -> SnapshotSystemData -> Result SnapshotSystemData)
    (snap : SnapshotSystemData) : Result SnapshotSystemData :=
  match idx with
  | [] => Ok snap
  | i :: rest => Result_bind (body i snap) (for_each rest body)
  end.

(** One turn of the loop of [calculateBoltzmannFactor]. *)
Definition restore_particle (h_tag : list nat)
    (position_old_arg orientation_old_arg : list Scalar4)
    (i : nat) (snap : SnapshotSystemData) : Result SnapshotSystemData :=
  Result_bind (at_index h_tag i) (fun tag =>
  Result_bind (map_find snap tag) (fun snap_idx =>
  Result_bind (at_index position_old_arg i) (fun p =>
  Result_bind (set_pos snap snap_idx (vec3_of_Scalar4 p)) (fun snap =>
  Result_bind (at_index orientation_old_arg i) (fun q =>
  set_orientation snap snap_idx (quat_of_Scalar4 q)))))).

(** "update snapshot with old configuration": the box, then the loop
    over the [N] local particles. *)
Definition update_with_old_configuration
    (position_old_arg orientation_old_arg : list Scalar4)
    (box_old_arg : BoxDim) (snap : SnapshotSystemData)
  : M SnapshotSystemData :=
  let snap := set_global_box snap box_old_arg in
  let! pdata := get_pdata in
  let N := getN pdata in
  let h_tag := getTags pdata in
  lift (for_each (seq 0 N)
          (restore_particle h_tag position_old_arg orientation_old_arg)
          snap).

(** [calculateBoltzmannFactor(position_old_arg, orientation_old_arg,
    box_old_arg)]. *)
Definition calculateBoltzmannFactor
    (position_old_arg orientation_old_arg : list Scalar4)
    (box_old_arg : BoxDim) : M Scalar :=
  let! snap := takeSnapshot in
  let! (energy_new, snap) := getEnergy snap in
  let! snap := update_with_old_configuration
                 position_old_arg orientation_old_arg box_old_arg snap in
  let! (energy_old, _) := getEnergy snap in
  ret (exp (- energy_new + energy_old)%float).

(** [boltzmann(index, position_old, shape_old, position_new, shape_new)]. *)
Definition boltzmann (index : nat) (position_old : vec3) (shape_old : Shape)
    (position_new : vec3) (shape_new : Shape) : M Scalar :=
  let! pdata := get_pdata in
  let! tag := lift (at_index (getTags pdata) index) in
  let! snap := takeSnapshot in
  let! snap_idx := lift (map_find snap tag) in
  let! snap := lift (set_pos snap snap_idx position_old) in
  let! snap := lift (set_orientation snap snap_idx
                       (Shape.orientation shape_old)) in
  let! (energy_old, snap) := getEnergy snap in
  let! snap := lift (set_pos snap snap_idx position_new) in
  let! snap := lift (set_orientation snap snap_idx
                       (Shape.orientation shape_new)) in
  let! (energy_new, _) := getEnergy snap in
  ret (exp (- energy_new + energy_old)%float).

(** [accept(index, position_old, shape_old, position_new, shape_new,
    rng)]: the stream is passed by reference, so its state after the
    call is returned with the decision. *)
Definition accept (index : nat) (position_old : vec3) (shape_old : Shape)
    (position_new : vec3) (shape_new : Shape) (rng : Saru)
  : M (bool * Saru) :=
  let! boltz := boltzmann index position_old shape_old
                  position_new shape_new in
  let reject := false in
  let (u, rng) := Saru_s 0%float 1%float rng in
  let reject := if (u <? boltz)%float then false else true in
  ret (negb reject, rng).

End ExternalCallback.

(** ** What the properties are stated with *)

Section Specification.
Context {hoomd_types : HoomdTypes} {hoomd_ops : HoomdOps}.

(** The field of [callback] is a pure function [E] of the snapshot: an
    evaluation returns [E snap] and changes neither the snapshot nor the
    world (section 4.1 of the specification). *)
Definition pure_field (callback : object)
    (E : SnapshotSystemData -> Scalar) : Prop :=
  forall snap w, getEnergy callback snap w = Ok ((E snap, snap), w).

(** The snapshot [snap] with position [p] and orientation [q] in slot [k],
    and nothing else changed. *)
Definition with_particle (snap : SnapshotSystemData) (k : nat)
    (p : vec3) (q : quat) : SnapshotSystemData :=
  make_snapshot (global_box snap)
    (make_particle_data
       (<[k := p]> (pos (particle_data snap)))
       (<[k := q]> (orientation (particle_data snap)))
       (particle_fields (particle_data snap)))
    (map snap) (system_fields snap).

(** [tag] resolves to slot [k] of [snap]: the map has it, and [k] is a
    slot of both arrays (the invariant of a snapshot, section 3). *)
Definition resolves (snap : SnapshotSystemData) (tag k : nat) : Prop :=
  map snap !! tag = Some k /\
  k < length (pos (particle_data snap)) /\
  k < length (orientation (particle_data snap)).

(** The local particle [i] of the live store has tag [tag]. *)
Definition local_tag (pdata : ParticleData) (i tag : nat) : Prop :=
  i < getN pdata /\ getTags pdata !! i = Some tag.

(** Every local particle of [pdata] has its tag, and the tag resolves to a
    slot of [snap]. *)
Definition covers (snap : SnapshotSystemData) (pdata : ParticleData)
  : Prop :=
  forall i, i < getN pdata ->
    exists tag k, getTags pdata !! i = Some tag /\ resolves snap tag k.

(** Slot [k] of [snap] is the slot of one of the local particles. *)
Definition supplied (snap : SnapshotSystemData) (pdata : ParticleData)
    (k : nat) : Prop :=
  exists i tag, local_tag pdata i tag /\ map snap !! tag = Some k.

(** The live store did not change between two worlds. *)
Definition same_store (w w' : World) : Prop := m_pdata w' = m_pdata w.

(** The first [n] turns of the loop of [calculateBoltzmannFactor]. *)
Definition turns (h_tag : list nat)
    (position_old_arg orientation_old_arg : list Scalar4)
    (n : nat) (snap : SnapshotSystemData) : Result SnapshotSystemData :=
  for_each (seq 0 n)
    (restore_particle h_tag position_old_arg orientation_old_arg) snap.

(** What the loop never changes: the box, the map, the members outside
    the two arrays, and the sizes of the two arrays. *)
Definition same_frame (snap snap' : SnapshotSystemData) : Prop :=
  global_box snap' = global_box snap /\
  map snap' = map snap /\
  system_fields snap' = system_fields snap /\
  particle_fields (particle_data snap') =
    particle_fields (particle_data snap) /\
  length (pos (particle_data snap')) = length (pos (particle_data snap)) /\
  length (orientation (particle_data snap')) =
    length (orientation (particle_data snap)).

(** The slot [k] of turn [i] is not written by a later turn below [n]. *)
Definition last_writer (h_tag : list nat) (snap : SnapshotSystemData)
    (n i k : nat) : Prop :=
  forall j tag, i < j < n -> h_tag !! j = Some tag ->
    map snap !! tag <> Some k.

(** No turn below [n] writes slot [k]. *)
Definition unwritten (h_tag : list nat) (snap : SnapshotSystemData)
    (n k : nat) : Prop :=
  forall i tag, i < n -> h_tag !! i = Some tag -> map snap !! tag <> Some k.

(** Well-formed arguments of the loop: the three arrays have at least [n]
    entries, and every index in the map is a slot of both arrays. *)
Definition well_formed (h_tag : list nat)
    (position_old_arg orientation_old_arg : list Scalar4)
    (n : nat) (snap : SnapshotSystemData) : Prop :=
  n <= length h_tag /\ n <= length position_old_arg /\
  n <= length orientation_old_arg /\
  forall tag k, map snap !! tag = Some k ->
    k < length (pos (particle_data snap)) /\
    k < length (orientation (particle_data snap)).

(** The computation [m] returns with the live store as it found it. *)
Definition keeps_store {A} (m : M A) : Prop :=
  forall w a w', m w = Ok (a, w') -> same_store w w'.

(** An object that is neither [None] nor a callable. *)
Definition not_callable (o : object) : Prop :=
  match o with
  | py_float _ | py_str _ => True
  | none | py_function _ => False
  end.

(** Local particle [i] is already, in [snap], where the old configuration
    puts it: its tag resolves to a slot that holds the [i]-th old position
    and orientation. *)
Definition in_place (h_tag : list nat)
    (position_old_arg orientation_old_arg : list Scalar4)
    (snap : SnapshotSystemData) (i : nat) : Prop :=
  exists tag k p q,
    h_tag !! i = Some tag /\ map snap !! tag = Some k /\
    position_old_arg !! i = Some p /\ orientation_old_arg !! i = Some q /\
    pos (particle_data snap) !! k = Some (vec3_of_Scalar4 p) /\
    orientation (particle_data snap) !! k = Some (quat_of_Scalar4 q).

End Specification.

(** ** A small instance

    One concrete choice of the collaborators, on which the functions above
    run: a cubic box given by its edge, a counter for the interpreter, a
    stream that always draws the midpoint, the conversions as VectorMath.h
    has them, a snapshot provider that copies the local particles in
    storage order, and a stand-in for [exp] that is exact where C fixes
    its value (NaN, the zeros and the infinities) and close to it on
    moderate arguments. *)

Module Demo.

#[export] Instance types : HoomdTypes :=
  {| BoxDim := Scalar;
     ParticleFields := unit;
     SystemFields := unit;
     Interpreter := nat;
     Saru := nat |}.

Fixpoint square_times (n : nat) (x : Scalar) : Scalar :=
  match n with
  | O => x
  | S n => square_times n (x * x)%float
  end.

Definition exp_standin (x : Scalar) : Scalar :=
  if is_nan x then nan
  else if is_zero x then 1%float
  else if is_infinity x then (if get_sign x then 0%float else infinity)
  else
    let y := (x / 1024)%float in
    square_times 10 (1 + y + y * y / 2 + y * y * y / 6)%float.

Definition vec3_of (a : Scalar4) : vec3 :=
  make_vec3 (s4_x a) (s4_y a) (s4_z a).

Definition quat_of (a : Scalar4) : quat :=
  make_quat (s4_x a) (make_vec3 (s4_y a) (s4_z a) (s4_w a)).

Definition midpoint (lo hi : Scalar) (state : nat) : Scalar * nat :=
  ((lo + (hi - lo) * 0.5)%float, S state).

Definition snapshot_of (pdata : ParticleData) : SnapshotSystemData :=
  let n := getN pdata in
  make_snapshot (getGlobalBox pdata)
    (make_particle_data
       (vec3_of <$> take n (getPositions pdata))
       (quat_of <$> take n (getOrientationArray pdata))
       tt)
    (list_to_map (zip (take n (getTags pdata)) (seq 0 n)))
    tt.

(** A build with the assertions in. *)
#[export] Instance ops : HoomdOps :=
  {| NDEBUG := false;
     exp := exp_standin;
     vec3_of_Scalar4 := vec3_of;
     quat_of_Scalar4 := quat_of;
     Saru_s := midpoint;
     SystemDefinition_takeSnapshot := snapshot_of |}.

(** The same, built with [NDEBUG]. *)
Definition release_ops : HoomdOps :=
  {| NDEBUG := true;
     exp := exp_standin;
     vec3_of_Scalar4 := vec3_of;
     quat_of_Scalar4 := quat_of;
     Saru_s := midpoint;
     SystemDefinition_takeSnapshot := snapshot_of |}.

(** A shape that is nothing but its orientation. *)
#[export] Instance shape_ops : Shape.ops quat := {| Shape.orientation q := q |}.

Definition origin : Scalar4 := make_scalar4 0%float 0%float 0%float 0%float.
Definition unit_x : Scalar4 := make_scalar4 1%float 0%float 0%float 0%float.
Definition identity : Scalar4 := make_scalar4 1%float 0%float 0%float 0%float.

(** The arguments of a particle move: two positions and a shape. *)
Definition p0 : vec3 := vec3_of origin.
Definition p1 : vec3 := vec3_of unit_x.
Definition q0 : quat := quat_of identity.

(** Two local particles, stored in the order tag 1, tag 0. *)
Definition store : ParticleData :=
  make_pdata 2 [1; 0] [unit_x; origin] [identity; identity] 10%float.

Definition world : World := make_world store 0.

(** No local particle at all. *)
Definition empty_world : World :=
  make_world (make_pdata 0 [] [] [] 10%float) 0.

(** A harmonic restraint of the particle in slot 0 to the plane [x = 0],
    with spring constant 2. *)
Definition spring_energy (snap : SnapshotSystemData) : Scalar :=
  match pos (particle_data snap) !! 0 with
  | Some p => (2 * (vec3_x p * vec3_x p))%float
  | None => 0%float
  end.

Definition spring : object :=
  py_function (fun snap i => Some (py_float (spring_energy snap), snap, i)).

(** A hard wall that every configuration violates: the energy is [+inf]. *)
Definition wall : object :=
  py_function (fun snap i => Some (py_float infinity, snap, i)).

(** A callable that returns [None]. *)
Definition silent : object :=
  py_function (fun snap i => Some (none, snap, i)).

(** A callable that returns a string. *)
Definition wordy : object :=
  py_function (fun snap i => Some (py_str "high", snap, i)).

(** A callable that raises. *)
Definition raising : object := py_function (fun snap i => None).

(** A callable that counts its calls in the interpreter. *)
Definition counting : object :=
  py_function (fun snap i => Some (py_float 0%float, snap, S i)).

(** A callable that empties the map of the snapshot it is given. *)
Definition forgetful : object :=
  py_function (fun snap i =>
    Some (py_float 0%float,
          make_snapshot (global_box snap) (particle_data snap) ∅
            (system_fields snap),
          i)).

(** A number where a callable is expected. *)
Definition number : object := py_float 3%float.

(** The configuration that the snapshot of [store] already has. *)
Definition position_now : list Scalar4 := [unit_x; origin].

(** The old configuration of a box move: both particles swapped back,
    in a box of edge 5. *)
Definition position_old : list Scalar4 := [origin; unit_x].
Definition orientation_old : list Scalar4 := [identity; identity].
Definition box_old : Scalar := 5%float.

(** The snapshot of [store] once the old configuration is written in. *)
Definition restored : SnapshotSystemData :=
  make_snapshot box_old
    (make_particle_data [p0; p1] [q0; q0] tt)
    (map (snapshot_of store)) tt.

(** A store whose second particle has a tag (7) that no snapshot of it
    can have: [getN] says one particle only. *)
Definition stale_store : ParticleData :=
  make_pdata 1 [1; 7] [unit_x; origin] [identity; identity] 10%float.

Definition stale_world : World := make_world stale_store 0.

End Demo.

(** * Properties *)

(** ** Facts of binary64 arithmetic *)

Module ScalarFacts.

(** A finite float is a signed zero or a finite non-zero number. *)
Lemma finite_shape (x : float) :
  is_finite x = true ->
  (exists s, Prim2SF x = S754_zero s) \/
  (exists s m e, Prim2SF x = S754_finite s m e).
Proof.
  unfold is_finite, Prim2SF. intros Hfin.
  destruct (is_nan x); [discriminate|].
  destruct (is_infinity x); [discriminate|].
  destruct (is_zero x); [left; eauto|].
  destruct (Z.frexp x) as [r ex].
  destruct (shr_fexp _ _ _ _ _) as [shr e'].
  destruct (shr_m shr); [left|right|left]; eauto.
Qed.

Lemma shl_align_same (m : positive) (e : Z) : shl_align m e e = (m, e).
Proof. unfold shl_align. now rewrite Z.sub_diag. Qed.

Lemma cond_Zopp_cancel (s : bool) (z : Z) :
  (cond_Zopp (negb s) z + cond_Zopp s z = 0)%Z.
Proof. destruct s; simpl; lia. Qed.

(** [-x + x] is [+0] for every finite [x] (round to nearest). *)
Lemma neg_add_self (x : float) :
  is_finite x = true -> (- x + x)%float = 0%float.
Proof.
  intros Hfin. apply Prim2SF_inj.
  rewrite add_spec, opp_spec.
  destruct (finite_shape x Hfin) as [[s ->] | (s & m & e & ->)].
  - now destruct s.
  - unfold SF64add, SFadd, SFopp.
    rewrite Z.min_id, shl_align_same. simpl fst.
    now rewrite cond_Zopp_cancel.
Qed.

(** [exp(-b + a)], as the source writes it, is [exp(a - b)]. *)
Lemma neg_add_is_sub (a b : float) : (- b + a)%float = (a - b)%float.
Proof.
  apply Prim2SF_inj. rewrite add_spec, sub_spec, opp_spec.
  unfold SF64add, SF64sub, SFadd, SFsub, SFopp.
  destruct (Prim2SF a) as [sa | sa | | sa ma ea],
           (Prim2SF b) as [sb | sb | | sb mb eb];
    try reflexivity;
    try (destruct sa, sb; reflexivity).
  rewrite (Z.min_comm eb ea). f_equal.
  destruct sb; simpl; lia.
Qed.

(** No draw is below a ratio that is NaN. *)
Lemma ltb_nan_r (u : float) : (u <? nan)%float = false.
Proof.
  rewrite ltb_spec. change (Prim2SF nan) with S754_nan.
  unfold SFltb, SFcompare. now destruct (Prim2SF u).
Qed.

Ltac split_compare :=
  repeat match goal with
    | H : context [(?a ?= ?b)%Z] |- _ =>
        destruct (Z.compare_spec a b); simpl in H; try discriminate H
    | |- context [(?a ?= ?b)%Z] =>
        destruct (Z.compare_spec a b); simpl
    | H : context [(?a ?= ?b)%positive] |- _ =>
        destruct (Pos.compare_spec a b); simpl in H; try discriminate H
    | |- context [(?a ?= ?b)%positive] =>
        destruct (Pos.compare_spec a b); simpl
    end.

Lemma SF_lt_le_trans (x y z : spec_float) :
  SFltb x y = true -> SFleb y z = true -> SFltb x z = true.
Proof.
  unfold SFltb, SFleb, SFcompare.
  destruct x as [sx|sx| |sx mx ex], y as [sy|sy| |sy my ey],
           z as [sz|sz| |sz mz ez];
    try discriminate; try reflexivity;
    try (destruct sx, sy, sz; try discriminate; reflexivity).
  change Pos.compare_cont with (fun c a b => Pos.compare_cont c a b).
  cbv beta. fold (Pos.compare mx my) (Pos.compare my mz) (Pos.compare mx mz).
  destruct sx, sy, sz; try discriminate; try reflexivity;
    intros H1 H2; split_compare; try reflexivity; try lia.
Qed.

(** The order of binary64: below [c], and [c] at most [b], is below [b]. *)
Lemma lt_le_trans (u c b : float) :
  (u <? c)%float = true -> (c <=? b)%float = true -> (u <? b)%float = true.
Proof. rewrite !ltb_spec, leb_spec. apply SF_lt_le_trans. Qed.

Lemma binary_round_opp (s : bool) (m : positive) (e : Z) :
  binary_round prec emax (negb s) m e = SFopp (binary_round prec emax s m e).
Proof.
  unfold binary_round, binary_round_aux.
  destruct (shl_align _ _ _) as [mz ez].
  destruct (shr_fexp _ _ _ _ _) as [mrs' e'].
  destruct (shr_fexp _ _ _ _ _) as [mrs'' e''].
  destruct (shr_m mrs''); try reflexivity.
  now destruct (_ <=? _)%Z.
Qed.

Lemma binary_normalize_opp (z e : Z) :
  z <> 0%Z ->
  binary_normalize prec emax (- z) e false =
    SFopp (binary_normalize prec emax z e false).
Proof.
  destruct z as [|m|m]; [done| |]; intros _; simpl.
  - apply (binary_round_opp false).
  - apply (binary_round_opp true).
Qed.

Lemma SFsub_antisym (x y : spec_float) :
  SF64sub y x = SFopp (SF64sub x y) \/
  (SF64sub x y = S754_zero false /\ SF64sub y x = S754_zero false).
Proof.
  unfold SF64sub, SFsub.
  destruct x as [sx|sx| |sx mx ex], y as [sy|sy| |sy my ey];
    try (left; reflexivity);
    try (destruct sx, sy; (left; reflexivity) || (right; split; reflexivity)).
  rewrite (Z.min_comm ey ex).
  set (a := cond_Zopp sx _). set (b := cond_Zopp sy _).
  destruct (Z.eq_dec (a - b)%Z 0%Z) as [Hz|Hz].
  - right. replace (b - a)%Z with 0%Z by lia. rewrite Hz. now split.
  - left. replace (b - a)%Z with (- (a - b))%Z by lia.
    now apply binary_normalize_opp.
Qed.

(** [b - a] is the negation of [a - b], unless both are [+0]. *)
Lemma sub_antisym (a b : float) :
  (b - a)%float = (- (a - b))%float \/
  ((a - b)%float = 0%float /\ (b - a)%float = 0%float).
Proof.
  destruct (SFsub_antisym (Prim2SF a) (Prim2SF b)) as [Hopp|[Hab Hba]].
  - left. apply Prim2SF_inj. now rewrite opp_spec, !sub_spec.
  - right. split; apply Prim2SF_inj; now rewrite sub_spec.
Qed.

End ScalarFacts.

(** ** The monad and the snapshot writes *)

Section Basics.
Context {hoomd_types : HoomdTypes} {hoomd_ops : HoomdOps}.

Lemma bind_Ok {A B} (m : M A) (k : A -> M B) (w w' : World) (a : A) :
  m w = Ok (a, w') -> bind m k w = k a w'.
Proof. unfold bind. now intros ->. Qed.

Lemma bind_Err {A B} (m : M A) (k : A -> M B) (w : World) (f : Fault) :
  m w = Err f -> bind m k w = Err f.
Proof. unfold bind. now intros ->. Qed.

Lemma bind_inv {A B} (m : M A) (k : A -> M B) (w w' : World) (b : B) :
  bind m k w = Ok (b, w') ->
  exists a w1, m w = Ok (a, w1) /\ k a w1 = Ok (b, w').
Proof.
  unfold bind. destruct (m w) as [[a w1]|f|]; [eauto | discriminate..].
Qed.

Lemma lift_Ok {A} (r : Result A) (w : World) (a : A) :
  r = Ok a -> lift r w = Ok (a, w).
Proof. now intros ->. Qed.

Lemma lift_inv {A} (r : Result A) (w w' : World) (a : A) :
  lift r w = Ok (a, w') -> r = Ok a /\ w' = w.
Proof. unfold lift. destruct r; [|discriminate..]. now intros [= -> ->]. Qed.

Lemma set_pos_Ok (snap : SnapshotSystemData) (k : nat) (p : vec3) :
  k < length (pos (particle_data snap)) ->
  set_pos snap k p =
    Ok (make_snapshot (global_box snap)
          (make_particle_data (<[k := p]> (pos (particle_data snap)))
             (orientation (particle_data snap))
             (particle_fields (particle_data snap)))
          (map snap) (system_fields snap)).
Proof. intros Hk. unfold set_pos. now rewrite decide_True. Qed.

Lemma set_orientation_Ok (snap : SnapshotSystemData) (k : nat) (q : quat) :
  k < length (orientation (particle_data snap)) ->
  set_orientation snap k q =
    Ok (make_snapshot (global_box snap)
          (make_particle_data (pos (particle_data snap))
             (<[k := q]> (orientation (particle_data snap)))
             (particle_fields (particle_data snap)))
          (map snap) (system_fields snap)).
Proof. intros Hk. unfold set_orientation. now rewrite decide_True. Qed.

(** Writing the position and then the orientation of a slot that exists
    yields [with_particle]. *)
Lemma write_slot (snap : SnapshotSystemData) (k : nat) (p : vec3) (q : quat) :
  k < length (pos (particle_data snap)) ->
  k < length (orientation (particle_data snap)) ->
  Result_bind (set_pos snap k p) (fun snap => set_orientation snap k q) =
    Ok (with_particle snap k p q).
Proof.
  intros Hp Hq. rewrite set_pos_Ok by done. simpl.
  now rewrite set_orientation_Ok by done.
Qed.

(** A second write to a slot replaces the first. *)
Lemma with_particle_overwrite (snap : SnapshotSystemData) (k : nat)
    (p p' : vec3) (q q' : quat) :
  with_particle (with_particle snap k p q) k p' q' = with_particle snap k p' q'.
Proof.
  unfold with_particle. simpl. now rewrite !list_insert_insert_eq.
Qed.

Lemma with_particle_lengths (snap : SnapshotSystemData) (k : nat)
    (p : vec3) (q : quat) :
  length (pos (particle_data (with_particle snap k p q))) =
    length (pos (particle_data snap)) /\
  length (orientation (particle_data (with_particle snap k p q))) =
    length (orientation (particle_data snap)).
Proof. simpl. now rewrite !length_insert. Qed.

Lemma getEnergy_none (snap : SnapshotSystemData) (w : World) :
  getEnergy none snap w = Ok ((0%float, snap), w).
Proof. reflexivity. Qed.

(** An absent callback is the pure field that is zero everywhere. *)
Lemma pure_field_none : pure_field none (fun _ => 0%float).
Proof. intros snap w. apply getEnergy_none. Qed.

End Basics.

(** ** The single-particle move *)

Section ParticleMove.
Context {hoomd_types : HoomdTypes} {hoomd_ops : HoomdOps}.
Context {Shape : Type} {shape_ops : Shape.ops Shape}.

(** [boltzmann] on a resolved slot, for any callback: the two evaluations
    of the field in sequence, the second on the snapshot the first one
    left. *)
Lemma boltzmann_unfold (callback : object) (w : World) (index tag k : nat)
    (position_old position_new : vec3) (shape_old shape_new : Shape) :
  let snap := SystemDefinition_takeSnapshot (m_pdata w) in
  getTags (m_pdata w) !! index = Some tag ->
  resolves snap tag k ->
  boltzmann callback index position_old shape_old position_new shape_new w =
    (let! (energy_old, snap) :=
       getEnergy callback
         (with_particle snap k position_old (Shape.orientation shape_old)) in
     let! snap := lift (set_pos snap k position_new) in
     let! snap := lift (set_orientation snap k
                          (Shape.orientation shape_new)) in
     let! (energy_new, _) := getEnergy callback snap in
     ret (exp (- energy_new + energy_old)%float)) w.
Proof.
  intros snap Htag (Hmap & Hp & Hq).
  unfold boltzmann.
  rewrite (bind_Ok _ _ w w (m_pdata w)) by reflexivity.
  rewrite (bind_Ok _ _ w w tag)
    by (apply lift_Ok; unfold at_index; now rewrite Htag).
  rewrite (bind_Ok _ _ w w snap) by reflexivity.
  rewrite (bind_Ok _ _ w w k)
    by (apply lift_Ok; unfold map_find; now rewrite Hmap).
  rewrite (bind_Ok _ _ w w _) by (apply lift_Ok, set_pos_Ok, Hp).
  rewrite (bind_Ok _ _ w w _) by (apply lift_Ok, set_orientation_Ok, Hq).
  reflexivity.
Qed.

(** The same for a pure field: the ratio of the two hypothetical
    configurations, each differing from the fresh snapshot in slot [k]
    only. *)
Lemma boltzmann_pure (callback : object) (E : SnapshotSystemData -> Scalar)
    (w : World) (index tag k : nat)
    (position_old position_new : vec3) (shape_old shape_new : Shape) :
  let snap := SystemDefinition_takeSnapshot (m_pdata w) in
  pure_field callback E ->
  getTags (m_pdata w) !! index = Some tag ->
  resolves snap tag k ->
  boltzmann callback index position_old shape_old position_new shape_new w =
    Ok (exp (- E (with_particle snap k position_new
                    (Shape.orientation shape_new))
             + E (with_particle snap k position_old
                    (Shape.orientation shape_old)))%float, w).
Proof.
  intros snap HE Htag Hres.
  rewrite (boltzmann_unfold _ _ _ tag k) by assumption.
  fold snap. destruct Hres as (_ & Hp & Hq).
  rewrite (bind_Ok _ _ w w _ (HE _ w)).
  rewrite (bind_Ok _ _ w w _)
    by (apply lift_Ok, set_pos_Ok; simpl; now rewrite length_insert).
  rewrite (bind_Ok _ _ w w _)
    by (apply lift_Ok, set_orientation_Ok; simpl; now rewrite length_insert).
  rewrite (bind_Ok _ _ w w _ (HE _ w)).
  unfold ret. simpl. now rewrite !list_insert_insert_eq.
Qed.

(** C1. [boltzmann] resolves the tag of the particle from its live local
    index, takes a fresh snapshot, writes the old position and orientation
    into the slot of the tag and evaluates the field there ([energy_old]),
    then writes the new position and orientation into the same slot of
    the same snapshot and evaluates the field again ([energy_new]), and
    returns [exp (energy_old - energy_new)].  This holds for every
    callback, also one that changes the snapshot or the interpreter, as
    long as the slot is still there after the first evaluation. *)
Theorem boltzmann_old_then_new (callback : object) (w w1 w2 : World)
    (index tag k : nat) (position_old position_new : vec3)
    (shape_old shape_new : Shape) (energy_old energy_new : Scalar)
    (snap1 snap2 : SnapshotSystemData) :
  let snap := SystemDefinition_takeSnapshot (m_pdata w) in
  getTags (m_pdata w) !! index = Some tag ->
  resolves snap tag k ->
  getEnergy callback
    (with_particle snap k position_old (Shape.orientation shape_old)) w =
    Ok ((energy_old, snap1), w1) ->
  k < length (pos (particle_data snap1)) ->
  k < length (orientation (particle_data snap1)) ->
  getEnergy callback
    (with_particle snap1 k position_new (Shape.orientation shape_new)) w1 =
    Ok ((energy_new, snap2), w2) ->
  boltzmann callback index position_old shape_old position_new shape_new w =
    Ok (exp (energy_old - energy_new)%float, w2).
Proof.
  intros snap Htag Hres Hold Hp Hq Hnew.
  rewrite (boltzmann_unfold _ _ _ tag k) by assumption.
  fold snap.
  rewrite (bind_Ok _ _ w w1 _ Hold).
  rewrite (bind_Ok _ _ w1 w1 _) by (apply lift_Ok, set_pos_Ok, Hp).
  rewrite (bind_Ok _ _ w1 w1 _) by (apply lift_Ok, set_orientation_Ok, Hq).
  rewrite (bind_Ok _ _ w1 w2 _ Hnew).
  unfold ret. now rewrite ScalarFacts.neg_add_is_sub.
Qed.

(** C8, as the code has it.  For a pure field whose energy at the
    configuration is finite, the move that changes nothing has ratio
    [exp 0], which is 1 as soon as [exp 0] is. *)
Theorem boltzmann_noop_finite (callback : object)
    (E : SnapshotSystemData -> Scalar) (w : World) (index tag k : nat)
    (position_old : vec3) (shape_old : Shape) :
  let snap := SystemDefinition_takeSnapshot (m_pdata w) in
  pure_field callback E ->
  getTags (m_pdata w) !! index = Some tag ->
  resolves snap tag k ->
  is_finite (E (with_particle snap k position_old
                  (Shape.orientation shape_old))) = true ->
  boltzmann callback index position_old shape_old position_old shape_old w =
    Ok (exp 0%float, w) /\
  (exp 0%float = 1%float ->
   boltzmann callback index position_old shape_old position_old shape_old w =
     Ok (1%float, w)).
Proof.
  intros snap HE Htag Hres Hfin.
  assert (boltzmann callback index position_old shape_old
            position_old shape_old w = Ok (exp 0%float, w)) as Hb.
  { rewrite (boltzmann_pure _ E _ _ tag k) by assumption.
    fold snap. now rewrite ScalarFacts.neg_add_self. }
  split; [exact Hb | intros <-; exact Hb].
Qed.

(** C10. With no callback the ratio of every move of a resolved particle
    is 1 ([exp 0] being 1) and, the draw being below 1, the move is
    accepted; the stream has advanced by that one draw. *)
Theorem absent_callback_accepts (w : World) (index tag k : nat)
    (position_old position_new : vec3) (shape_old shape_new : Shape)
    (rng : Saru) :
  let snap := SystemDefinition_takeSnapshot (m_pdata w) in
  let draw := Saru_s 0%float 1%float rng in
  getTags (m_pdata w) !! index = Some tag ->
  resolves snap tag k ->
  exp 0%float = 1%float ->
  (fst draw <? 1)%float = true ->
  boltzmann none index position_old shape_old position_new shape_new w =
    Ok (1%float, w) /\
  accept none index position_old shape_old position_new shape_new rng w =
    Ok ((true, snd draw), w).
Proof.
  intros snap draw Htag Hres Hexp Hu.
  assert (boltzmann none index position_old shape_old
            position_new shape_new w = Ok (1%float, w)) as Hb.
  { rewrite (boltzmann_pure none (fun _ => 0%float) _ _ tag k)
      by (assumption || apply pure_field_none).
    now rewrite <- Hexp. }
  split; [exact Hb|].
  unfold accept. rewrite (bind_Ok _ _ w w _ Hb).
  fold draw. destruct draw as [u rng']. simpl in Hu |- *.
  unfold ret. now rewrite Hu.
Qed.

(** C2. [accept] draws once from the stream, after the ratio is known:
    when [boltzmann] returns [boltz], [accept] returns whether the drawn
    value is below [boltz] together with the stream after that one draw,
    whatever the decision; when [boltzmann] faults, so does [accept]. *)
Theorem accept_iff_draw_below_ratio (callback : object) (w : World)
    (index : nat) (position_old position_new : vec3)
    (shape_old shape_new : Shape) (rng : Saru) :
  let draw := Saru_s 0%float 1%float rng in
  (forall boltz w',
     boltzmann callback index position_old shape_old
       position_new shape_new w = Ok (boltz, w') ->
     accept callback index position_old shape_old
       position_new shape_new rng w =
       Ok (((fst draw <? boltz)%float, snd draw), w')) /\
  (forall f,
     boltzmann callback index position_old shape_old
       position_new shape_new w = Err f ->
     accept callback index position_old shape_old
       position_new shape_new rng w = Err f).
Proof.
  intros draw. split.
  - intros boltz w' Hb. unfold accept. rewrite (bind_Ok _ _ w w' _ Hb).
    fold draw. destruct draw as [u rng']. unfold ret. simpl.
    now destruct (u <? boltz)%float.
  - intros f Hb. unfold accept. now rewrite (bind_Err _ _ w f Hb).
Qed.

End ParticleMove.

(** ** The callback field *)

Section CallbackField.
Context {hoomd_types : HoomdTypes} {hoomd_ops : HoomdOps}.

(** C4. The two-level null check of [getEnergy].  An absent callback
    ([None]) gives energy 0 without any call: snapshot and world are as
    they were.  Otherwise the callback is called with the snapshot; if
    the call raises, so does [getEnergy]; a returned [None] gives energy
    0; any other returned object is cast to [Scalar], and the energy is
    the value of the cast (a cast that fails raises). *)
Theorem getEnergy_two_level_null_check (callback : object)
    (snap : SnapshotSystemData) (w : World) :
  (is_none callback = true ->
   getEnergy callback snap w = Ok ((0%float, snap), w)) /\
  (is_none callback = false ->
   (forall f, call callback snap w = Err f ->
      getEnergy callback snap w = Err f) /\
   (forall rv snap' w',
      call callback snap w = Ok ((rv, snap'), w') ->
      (is_none rv = true ->
       getEnergy callback snap w = Ok ((0%float, snap'), w')) /\
      (is_none rv = false ->
       getEnergy callback snap w =
         match cast_Scalar rv with
         | Ok e => Ok ((e, snap'), w')
         | Err f => Err f
         | Undefined => Undefined
         end))).
Proof.
  unfold getEnergy. split; intros Hcb; rewrite Hcb; simpl.
  - reflexivity.
  - split.
    + intros f Hcall. now rewrite (bind_Err _ _ w f Hcall).
    + intros rv snap' w' Hcall.
      rewrite (bind_Ok _ _ w w' _ Hcall).
      split; intros Hrv; rewrite Hrv; simpl.
      * reflexivity.
      * unfold bind, lift, ret. now destruct (cast_Scalar rv).
Qed.

(** A call of the callback leaves the live store alone. *)
Lemma call_same_store (f : object) (snap : SnapshotSystemData) (w w' : World)
    (x : object * SnapshotSystemData) :
  call f snap w = Ok (x, w') -> same_store w w'.
Proof.
  unfold call, same_store. destruct f as [| | |code]; try discriminate.
  destruct (code snap (interp w)) as [[[rv snap'] i']|]; [|discriminate].
  now intros [= _ <-].
Qed.

Lemma getEnergy_same_store (callback : object) (snap : SnapshotSystemData)
    (w w' : World) (x : Scalar * SnapshotSystemData) :
  getEnergy callback snap w = Ok (x, w') -> same_store w w'.
Proof.
  unfold getEnergy. destruct (is_none callback); simpl.
  - now intros [= _ <-].
  - intros Hb. apply bind_inv in Hb as ([rv snap'] & w1 & Hcall & Hrest).
    apply call_same_store in Hcall.
    destruct (is_none rv); simpl in Hrest.
    + now injection Hrest as _ <-.
    + apply bind_inv in Hrest as (e & w2 & Hcast & Hret).
      apply lift_inv in Hcast as [_ ->]. now injection Hret as _ <-.
Qed.

(** C9. [calculateBoltzmannWeight] takes a snapshot of the live
    configuration, evaluates the field on it and returns [exp (-E)]; its
    argument [timestep] is not used, and it has no random stream to draw
    from.  For a pure field the value is a function of the live store
    alone and the world is left as it was, so a second call, with any
    timestep, returns the same. *)
Theorem calculateBoltzmannWeight_exp_minus_energy (callback : object)
    (w : World) (timestep timestep' : nat) :
  let snap := SystemDefinition_takeSnapshot (m_pdata w) in
  calculateBoltzmannWeight callback timestep' w =
    calculateBoltzmannWeight callback timestep w /\
  (forall energy snap' w',
     getEnergy callback snap w = Ok ((energy, snap'), w') ->
     calculateBoltzmannWeight callback timestep w =
       Ok (exp (- energy)%float, w')) /\
  (forall E,
     pure_field callback E ->
     calculateBoltzmannWeight callback timestep w =
       Ok (exp (- E snap)%float, w) /\
     (let! _ := calculateBoltzmannWeight callback timestep in
      calculateBoltzmannWeight callback timestep') w =
       Ok (exp (- E snap)%float, w)).
Proof.
  intros snap.
  assert (forall t energy snap' w',
            getEnergy callback snap w = Ok ((energy, snap'), w') ->
            calculateBoltzmannWeight callback t w =
              Ok (exp (- energy)%float, w')) as Hgen.
  { intros t energy snap' w' He. unfold calculateBoltzmannWeight.
    rewrite (bind_Ok _ _ w w snap) by reflexivity.
    now rewrite (bind_Ok _ _ w w' _ He). }
  split; [reflexivity|]. split; [apply Hgen|].
  intros E HE. split; [apply Hgen with snap, HE|].
  rewrite (bind_Ok _ _ w w _ (Hgen timestep _ _ _ (HE snap w))).
  apply Hgen with snap, HE.
Qed.

End CallbackField.

(** ** The live store *)

Section SnapshotIsolation.
Context {hoomd_types : HoomdTypes} {hoomd_ops : HoomdOps}.
Context {Shape : Type} {shape_ops : Shape.ops Shape}.

(** C7. When [boltzmann] returns, the live particle store (tags,
    positions, orientations and box) is what it was before the call: the
    writes of [boltzmann] go to the snapshot that [takeSnapshot] gave it. *)
Theorem boltzmann_leaves_store (callback : object) (w w' : World)
    (index : nat) (position_old position_new : vec3)
    (shape_old shape_new : Shape) (boltz : Scalar) :
  boltzmann callback index position_old shape_old position_new shape_new w =
    Ok (boltz, w') ->
  m_pdata w' = m_pdata w /\
  getPositions (m_pdata w') = getPositions (m_pdata w) /\
  getOrientationArray (m_pdata w') = getOrientationArray (m_pdata w).
Proof.
  intros Hb. enough (m_pdata w' = m_pdata w) as -> by done.
  unfold boltzmann in Hb.
  apply bind_inv in Hb as (pdata & w1 & [= <- <-] & Hb).
  apply bind_inv in Hb as (tag & w1 & Hstep & Hb).
  apply lift_inv in Hstep as [_ ->].
  apply bind_inv in Hb as (snap & w1 & [= <- <-] & Hb).
  apply bind_inv in Hb as (snap_idx & w1 & Hstep & Hb).
  apply lift_inv in Hstep as [_ ->].
  apply bind_inv in Hb as (snap1 & w1 & Hstep & Hb).
  apply lift_inv in Hstep as [_ ->].
  apply bind_inv in Hb as (snap2 & w1 & Hstep & Hb).
  apply lift_inv in Hstep as [_ ->].
  apply bind_inv in Hb as ([energy_old snap3] & w1 & Hold & Hb).
  apply getEnergy_same_store in Hold.
  apply bind_inv in Hb as (snap4 & w2 & Hstep & Hb).
  apply lift_inv in Hstep as [_ ->].
  apply bind_inv in Hb as (snap5 & w2 & Hstep & Hb).
  apply lift_inv in Hstep as [_ ->].
  apply bind_inv in Hb as ([energy_new snap6] & w2 & Hnew & Hb).
  apply getEnergy_same_store in Hnew.
  injection Hb as _ <-.
  unfold same_store in *. congruence.
Qed.

End SnapshotIsolation.

(** ** The loop of the box move *)

Section RestoreLoop.
Context {hoomd_types : HoomdTypes} {hoomd_ops : HoomdOps}.
Variables (h_tag : list nat).
Variables (position_old_arg orientation_old_arg : list Scalar4).

Local Abbreviation turns := (turns h_tag position_old_arg orientation_old_arg).
Local Abbreviation well_formed :=
  (well_formed h_tag position_old_arg orientation_old_arg).
Local Abbreviation last_writer := (last_writer h_tag).
Local Abbreviation unwritten := (unwritten h_tag).

Lemma same_frame_refl (snap : SnapshotSystemData) : same_frame snap snap.
Proof. now repeat split. Qed.

Lemma same_frame_with_particle (snap snap' : SnapshotSystemData) (k : nat)
    (p : vec3) (q : quat) :
  same_frame snap snap' -> same_frame snap (with_particle snap' k p q).
Proof.
  intros (? & ? & ? & ? & ? & ?). unfold same_frame. simpl.
  rewrite !length_insert. now repeat split.
Qed.

Lemma for_each_app (l1 l2 : list nat)
    (body : nat -> SnapshotSystemData -> Result SnapshotSystemData)
    (snap : SnapshotSystemData) :
  for_each (l1 ++ l2) body snap =
    Result_bind (for_each l1 body snap) (for_each l2 body).
Proof.
  revert snap. induction l1 as [|i l1 IH]; intros snap; simpl; [done|].
  destruct (body i snap); simpl; [apply IH | done..].
Qed.

Lemma turns_S (n : nat) (snap : SnapshotSystemData) :
  turns (S n) snap =
    Result_bind (turns n snap)
      (restore_particle h_tag position_old_arg orientation_old_arg n).
Proof.
  unfold turns. rewrite seq_S, for_each_app. simpl.
  destruct (for_each _ _ snap); simpl; [|done..].
  now destruct (restore_particle _ _ _ n a).
Qed.

(** One turn that succeeds has found the tag, its slot and the two old
    values, and has written the slot. *)
Lemma restore_particle_inv (i : nat) (snap snap' : SnapshotSystemData) :
  restore_particle h_tag position_old_arg orientation_old_arg i snap =
    Ok snap' ->
  exists tag k p q,
    h_tag !! i = Some tag /\ map snap !! tag = Some k /\
    position_old_arg !! i = Some p /\ orientation_old_arg !! i = Some q /\
    k < length (pos (particle_data snap)) /\
    k < length (orientation (particle_data snap)) /\
    snap' = with_particle snap k (vec3_of_Scalar4 p) (quat_of_Scalar4 q).
Proof.
  unfold restore_particle, at_index, map_find, set_pos, set_orientation.
  destruct (h_tag !! i) as [tag|] eqn:Htag; simpl; [|discriminate].
  destruct (map snap !! tag) as [k|] eqn:Hmap; simpl;
    [|destruct NDEBUG; discriminate].
  destruct (position_old_arg !! i) as [p|] eqn:Hpi; simpl; [|discriminate].
  destruct (decide (k < _)) as [Hp|]; simpl; [|discriminate].
  destruct (orientation_old_arg !! i) as [q|] eqn:Hqi; simpl; [|discriminate].
  destruct (decide (k < _)) as [Hq|]; simpl; [|discriminate].
  intros [= <-]. exists tag, k, p, q. now repeat split.
Qed.

Lemma restore_particle_Ok (i tag k : nat) (p q : Scalar4)
    (snap : SnapshotSystemData) :
  h_tag !! i = Some tag -> map snap !! tag = Some k ->
  position_old_arg !! i = Some p -> orientation_old_arg !! i = Some q ->
  k < length (pos (particle_data snap)) ->
  k < length (orientation (particle_data snap)) ->
  restore_particle h_tag position_old_arg orientation_old_arg i snap =
    Ok (with_particle snap k (vec3_of_Scalar4 p) (quat_of_Scalar4 q)).
Proof.
  intros Htag Hmap Hp Hq Hkp Hkq.
  unfold restore_particle, at_index, map_find.
  rewrite Htag; simpl. rewrite Hmap; simpl. rewrite Hp; simpl.
  rewrite set_pos_Ok by done. simpl. rewrite Hq; simpl.
  now rewrite set_orientation_Ok by done.
Qed.

(** The state after [n] turns that all succeed. *)
Lemma turns_inv (n : nat) (snap snap' : SnapshotSystemData) :
  turns n snap = Ok snap' ->
  same_frame snap snap' /\
  (forall i, i < n -> exists tag k,
     h_tag !! i = Some tag /\ map snap !! tag = Some k) /\
  (forall k, unwritten snap n k ->
     pos (particle_data snap') !! k = pos (particle_data snap) !! k /\
     orientation (particle_data snap') !! k =
       orientation (particle_data snap) !! k) /\
  (forall i tag k, i < n -> h_tag !! i = Some tag ->
     map snap !! tag = Some k -> last_writer snap n i k ->
     pos (particle_data snap') !! k =
       vec3_of_Scalar4 <$> position_old_arg !! i /\
     orientation (particle_data snap') !! k =
       quat_of_Scalar4 <$> orientation_old_arg !! i).
Proof.
  revert snap'. induction n as [|n IH]; intros snap'.
  - intros [= <-]. split; [apply same_frame_refl|].
    split; [lia|]. split; [done|]. intros; lia.
  - rewrite turns_S.
    destruct (turns n snap) as [snap1|f|]; [|discriminate..].
    simpl. intros Hturn.
    destruct (IH snap1 eq_refl) as (Hframe & Hfound & Hrest & Hlast).
    apply restore_particle_inv in Hturn
      as (tag & k & p & q & Htag & Hmap & Hp & Hq & Hkp & Hkq & ->).
    assert (map snap !! tag = Some k) as Hmap0.
    { destruct Hframe as (_ & <- & _). exact Hmap. }
    split; [now apply same_frame_with_particle|]. split; [|split].
    + intros i Hi. destruct (decide (i = n)) as [->|]; [eauto|].
      apply Hfound. lia.
    + intros k' Hun.
      assert (k ≠ k') as Hne.
      { intros <-. apply (Hun n tag); [lia|done..]. }
      simpl. rewrite !list_lookup_insert_ne by done.
      apply Hrest. intros i tag' Hi. apply Hun. lia.
    + intros i tag' k' Hi Htag' Hmap' Hlw.
      destruct (decide (i = n)) as [->|Hin].
      * assert (tag' = tag) as -> by congruence.
        assert (k' = k) as -> by congruence.
        simpl. rewrite !list_lookup_insert_eq by done.
        now rewrite Hp, Hq.
      * assert (k ≠ k') as Hne.
        { intros <-. apply (Hlw n tag); [lia|done..]. }
        simpl. rewrite !list_lookup_insert_ne by done.
        apply (Hlast i tag'); [lia|done|done|].
        intros j tag'' Hj. apply Hlw. lia.
Qed.

(** With the assertions in, on well-formed arguments, a turn stops only
    at the [assert], and does so exactly when the tag is not in the map. *)
Lemma restore_particle_cases (n i : nat) (snap0 snap : SnapshotSystemData) :
  NDEBUG = false ->
  well_formed n snap0 -> same_frame snap0 snap -> i < n ->
  exists tag, h_tag !! i = Some tag /\
    match map snap0 !! tag with
    | Some k =>
        exists snap',
          restore_particle h_tag position_old_arg orientation_old_arg i snap =
            Ok snap'
    | None =>
        restore_particle h_tag position_old_arg orientation_old_arg i snap =
          Err AssertionFailed
    end.
Proof.
  intros Hdebug (Ht & Hp & Hq & Hslots) (_ & Hmap & _ & _ & Hlp & Hlq) Hi.
  destruct (lookup_lt_is_Some_2 h_tag i) as [tag Htag]; [lia|].
  destruct (lookup_lt_is_Some_2 position_old_arg i) as [p Hpi]; [lia|].
  destruct (lookup_lt_is_Some_2 orientation_old_arg i) as [q Hqi]; [lia|].
  exists tag. split; [done|].
  destruct (map snap0 !! tag) as [k|] eqn:Hk.
  - destruct (Hslots tag k Hk) as [Hkp Hkq].
    eexists. apply (restore_particle_Ok i tag k p q); try done; try lia.
    now rewrite Hmap.
  - unfold restore_particle, at_index, map_find.
    rewrite Htag; simpl. now rewrite Hmap, Hk, Hdebug.
Qed.

(** With the assertions in, on well-formed arguments, the loop stops at
    the [assert] when one of the first [n] tags is not in the map, and
    runs through otherwise. *)
Lemma turns_cases (n m : nat) (snap : SnapshotSystemData) :
  NDEBUG = false ->
  well_formed m snap -> n <= m ->
  ((exists i tag, i < n /\ h_tag !! i = Some tag /\ map snap !! tag = None) /\
   turns n snap = Err AssertionFailed) \/
  ((forall i tag, i < n -> h_tag !! i = Some tag ->
      is_Some (map snap !! tag)) /\
   exists snap', turns n snap = Ok snap').
Proof.
  intros Hdebug Hwf. induction n as [|n IH]; intros Hn.
  - right. split; [intros; lia | now exists snap].
  - rewrite turns_S.
    destruct IH as [[(i & tag & Hi & Htag & Hnone) ->]
                   | [Hall [snap1 Hturns]]]; [lia| |].
    + left. split; [|done]. exists i, tag. split; [lia|done].
    + rewrite Hturns. simpl.
      apply turns_inv in Hturns as (Hframe & _).
      destruct (restore_particle_cases m n snap snap1 Hdebug Hwf Hframe)
        as (tag & Htag & Hcase); [lia|].
      destruct (map snap !! tag) as [k|] eqn:Hk.
      * right. split; [|exact Hcase].
        intros i tag' Hi Htag'. destruct (decide (i = n)) as [->|].
        -- assert (tag' = tag) as -> by congruence. now rewrite Hk.
        -- apply (Hall i); [lia|done].
      * left. split; [|exact Hcase]. exists n, tag. split; [lia|done].
Qed.

(** Whatever the arguments, the loop does not stop at the [assert] when
    the first [n] tags are all in the map. *)
Lemma turns_no_assert (n : nat) (snap : SnapshotSystemData) :
  (forall i tag, i < n -> h_tag !! i = Some tag ->
     is_Some (map snap !! tag)) ->
  turns n snap <> Err AssertionFailed.
Proof.
  induction n as [|n IH]; intros Hall; [done|].
  rewrite turns_S.
  destruct (turns n snap) as [snap1|f|] eqn:Hturns; simpl.
  - apply turns_inv in Hturns as ((_ & Hmap & _) & _).
    unfold restore_particle, at_index, map_find, set_pos, set_orientation.
    destruct (h_tag !! n) as [tag|] eqn:Htag; simpl; [|done].
    destruct (Hall n tag) as [k Hk]; [lia|done|].
    rewrite Hmap, Hk. simpl.
    destruct (position_old_arg !! n); simpl; [|done].
    destruct (decide _); simpl; [|done].
    destruct (orientation_old_arg !! n); simpl; [|done].
    now destruct (decide _).
  - intros [= ->]. apply IH; [|done].
    intros i tag Hi. apply Hall. lia.
  - done.
Qed.

End RestoreLoop.

(** ** The box move *)

Section BoxMove.
Context {hoomd_types : HoomdTypes} {hoomd_ops : HoomdOps}.

(** Between the two evaluations the snapshot gets the old box and then
    goes through the loop, with [N] and the tags read from the live
    store. *)
Lemma update_with_old_configuration_unfold
    (position_old_arg orientation_old_arg : list Scalar4)
    (box_old_arg : BoxDim) (snap : SnapshotSystemData) (w : World) :
  update_with_old_configuration position_old_arg orientation_old_arg
    box_old_arg snap w =
    lift (turns (getTags (m_pdata w)) position_old_arg orientation_old_arg
            (getN (m_pdata w)) (set_global_box snap box_old_arg)) w.
Proof. reflexivity. Qed.

(** [getEnergy] raises or returns; it has no [assert]. *)
Lemma getEnergy_no_assert (callback : object) (snap : SnapshotSystemData)
    (w : World) :
  getEnergy callback snap w <> Err AssertionFailed.
Proof.
  unfold getEnergy, bind, call, lift, ret, cast_Scalar.
  destruct callback as [| | |code]; simpl; try done.
  destruct (code snap (interp w)) as [[[rv snap'] i']|]; [|done].
  now destruct rv.
Qed.

(** C6. The update of the snapshot between the two evaluations of
    [calculateBoltzmannFactor] sets the box to the old box and writes the
    position and the orientation in the slots of the local particles; the
    map, the other members of the snapshot, the sizes of the two arrays
    and the entries of every other slot are as before, and so is the
    world. *)
Theorem update_with_old_configuration_frame
    (position_old_arg orientation_old_arg : list Scalar4)
    (box_old_arg : BoxDim) (snap snap' : SnapshotSystemData) (w w' : World) :
  update_with_old_configuration position_old_arg orientation_old_arg
    box_old_arg snap w = Ok (snap', w') ->
  w' = w /\
  global_box snap' = box_old_arg /\
  map snap' = map snap /\
  system_fields snap' = system_fields snap /\
  particle_fields (particle_data snap') =
    particle_fields (particle_data snap) /\
  length (pos (particle_data snap')) = length (pos (particle_data snap)) /\
  length (orientation (particle_data snap')) =
    length (orientation (particle_data snap)) /\
  (forall k, ~ supplied snap (m_pdata w) k ->
     pos (particle_data snap') !! k = pos (particle_data snap) !! k /\
     orientation (particle_data snap') !! k =
       orientation (particle_data snap) !! k).
Proof.
  rewrite update_with_old_configuration_unfold. intros Hup.
  apply lift_inv in Hup as [Hturns ->].
  apply turns_inv in Hturns
    as ((Hbox & Hmap & Hsys & Hpf & Hlp & Hlq) & _ & Hrest & _).
  do 7 (split; [assumption || reflexivity|]).
  intros k Hns. apply (Hrest k). intros i tag Hi Htag Hk. apply Hns.
  exists i, tag. now repeat split.
Qed.

(** C3. [calculateBoltzmannFactor] evaluates the field on a snapshot of
    the current configuration ([energy_new]); then, for any number [N] of
    local particles whose tags resolve and whose old values are supplied,
    the update succeeds and leaves a snapshot with the old box in which
    the slot of each local particle holds the supplied old position and
    orientation (of the last particle written there, should two share a
    slot); the field is evaluated on that snapshot ([energy_old]) and the
    result is [exp (energy_old - energy_new)].  With [N = 0] the second
    snapshot is the first with the old box, and nothing else changed. *)
Theorem calculateBoltzmannFactor_old_config (callback : object)
    (position_old_arg orientation_old_arg : list Scalar4)
    (box_old_arg : BoxDim) (w w1 : World) (energy_new : Scalar)
    (snap1 : SnapshotSystemData) :
  let snap := SystemDefinition_takeSnapshot (m_pdata w) in
  let pdata := m_pdata w in
  getEnergy callback snap w = Ok ((energy_new, snap1), w1) ->
  covers snap1 pdata ->
  getN pdata <= length position_old_arg ->
  getN pdata <= length orientation_old_arg ->
  exists snap2,
    update_with_old_configuration position_old_arg orientation_old_arg
      box_old_arg snap1 w1 = Ok (snap2, w1) /\
    global_box snap2 = box_old_arg /\
    (forall i tag k,
       local_tag pdata i tag -> map snap1 !! tag = Some k ->
       last_writer (getTags pdata) snap1 (getN pdata) i k ->
       pos (particle_data snap2) !! k =
         vec3_of_Scalar4 <$> position_old_arg !! i /\
       orientation (particle_data snap2) !! k =
         quat_of_Scalar4 <$> orientation_old_arg !! i) /\
    (getN pdata = 0 -> snap2 = set_global_box snap1 box_old_arg) /\
    (forall energy_old snap3 w2,
       getEnergy callback snap2 w1 = Ok ((energy_old, snap3), w2) ->
       calculateBoltzmannFactor callback position_old_arg
         orientation_old_arg box_old_arg w =
         Ok (exp (energy_old - energy_new)%float, w2)).
Proof.
  intros snap pdata Hnew Hcov Hlp Hlq.
  assert (m_pdata w1 = pdata) as Hstore
    by exact (getEnergy_same_store _ _ _ _ _ Hnew).
  pose (snap1' := set_global_box snap1 box_old_arg).
  assert (exists snap2,
            turns (getTags pdata) position_old_arg orientation_old_arg
              (getN pdata) snap1' = Ok snap2) as [snap2 Hturns].
  { generalize (le_n (getN pdata)).
    generalize (getN pdata) at 1 3 as n.
    induction n as [|n IH]; intros Hn; [now exists snap1'|].
    destruct IH as [snap' Hturns']; [lia|].
    rewrite turns_S, Hturns'. simpl.
    apply turns_inv in Hturns' as ((_ & Hmap & _ & _ & Hp & Hq) & _).
    destruct (Hcov n) as (tag & k & Htag & Hk & Hkp & Hkq); [lia|].
    destruct (lookup_lt_is_Some_2 position_old_arg n) as [p Hpn]; [lia|].
    destruct (lookup_lt_is_Some_2 orientation_old_arg n) as [q Hqn]; [lia|].
    eexists. apply (restore_particle_Ok _ _ _ n tag k p q); try done.
    - now rewrite Hmap.
    - now rewrite Hp.
    - now rewrite Hq. }
  exists snap2.
  assert (update_with_old_configuration position_old_arg orientation_old_arg
            box_old_arg snap1 w1 = Ok (snap2, w1)) as Hup.
  { rewrite update_with_old_configuration_unfold, Hstore.
    fold snap1'. now rewrite Hturns. }
  split; [exact Hup|].
  pose proof (turns_inv _ _ _ _ _ _ Hturns) as ((Hbox & _) & _ & _ & Hlast).
  split; [exact Hbox|]. split; [|split].
  - intros i tag k [Hi Htag] Hk Hlw. now apply (Hlast i tag k).
  - intros HN. rewrite HN in Hturns. now injection Hturns as <-.
  - intros energy_old snap3 w2 Hold. unfold calculateBoltzmannFactor.
    rewrite (bind_Ok _ _ w w snap) by reflexivity.
    rewrite (bind_Ok _ _ w w1 _ Hnew).
    rewrite (bind_Ok _ _ w1 w1 _ Hup).
    rewrite (bind_Ok _ _ w1 w2 _ Hold).
    unfold ret. now rewrite ScalarFacts.neg_add_is_sub.
Qed.


(** Without purity: if the first evaluation raises, or the update or the
    second evaluation does, [calculateBoltzmannFactor] is that fault. *)
Lemma calculateBoltzmannFactor_unfold (callback : object)
    (position_old_arg orientation_old_arg : list Scalar4)
    (box_old_arg : BoxDim) (w w1 : World) (energy_new : Scalar)
    (snap1 : SnapshotSystemData) :
  getEnergy callback (SystemDefinition_takeSnapshot (m_pdata w)) w =
    Ok ((energy_new, snap1), w1) ->
  calculateBoltzmannFactor callback position_old_arg orientation_old_arg
    box_old_arg w =
    match turns (getTags (m_pdata w)) position_old_arg orientation_old_arg
            (getN (m_pdata w)) (set_global_box snap1 box_old_arg) with
    | Ok snap2 =>
        (let! (energy_old, _) := getEnergy callback snap2 in
         ret (exp (- energy_new + energy_old)%float)) w1
    | Err f => Err f
    | Undefined => Undefined
    end.
Proof.
  intros Hnew. unfold calculateBoltzmannFactor.
  rewrite (bind_Ok _ _ w w _) by reflexivity.
  rewrite (bind_Ok _ _ w w1 _ Hnew).
  unfold bind at 1. rewrite update_with_old_configuration_unfold.
  rewrite (getEnergy_same_store _ _ _ _ _ Hnew).
  now destruct (turns _ _ _ _ _).
Qed.

End BoxMove.

(** ** The consistency fault *)

Section ConsistencyFault.
Context {hoomd_types : HoomdTypes} {hoomd_ops : HoomdOps}.
Context {Shape : Type} {shape_ops : Shape.ops Shape}.

(** C5, as the code has it.  With the assertions in ([NDEBUG] not
    defined), a tag that the map of the snapshot does not have stops the
    call at the [assert]: [boltzmann] for the tag of its particle, and
    [calculateBoltzmannFactor], on well-formed arrays, for the tag of any
    of its local particles; neither returns a value nor skips the
    particle.  In every build, when the tags are in the map the [assert]
    is never what stops either of them. *)
Theorem absent_tag_fails_fast (callback : object) (w : World) :
  let snap := SystemDefinition_takeSnapshot (m_pdata w) in
  let pdata := m_pdata w in
  (forall index tag position_old position_new
          (shape_old shape_new : Shape),
     getTags pdata !! index = Some tag ->
     (NDEBUG = false ->
      map snap !! tag = None ->
      boltzmann callback index position_old shape_old
        position_new shape_new w = Err AssertionFailed) /\
     (is_Some (map snap !! tag) ->
      boltzmann callback index position_old shape_old
        position_new shape_new w <> Err AssertionFailed)) /\
  (forall position_old_arg orientation_old_arg box_old_arg
          energy_new snap1 w1,
     getEnergy callback snap w = Ok ((energy_new, snap1), w1) ->
     (NDEBUG = false ->
      well_formed (getTags pdata) position_old_arg orientation_old_arg
        (getN pdata) snap1 ->
      (exists i tag, local_tag pdata i tag /\ map snap1 !! tag = None) ->
      calculateBoltzmannFactor callback position_old_arg
        orientation_old_arg box_old_arg w = Err AssertionFailed) /\
     ((forall i tag, local_tag pdata i tag -> is_Some (map snap1 !! tag)) ->
      calculateBoltzmannFactor callback position_old_arg
        orientation_old_arg box_old_arg w <> Err AssertionFailed)).
Proof.
  intros snap pdata. split.
  - intros index tag position_old position_new shape_old shape_new Htag.
    split.
    + intros Hdebug Hnone. unfold boltzmann.
      rewrite (bind_Ok _ _ w w (m_pdata w)) by reflexivity.
      rewrite (bind_Ok _ _ w w tag)
        by (apply lift_Ok; unfold at_index; fold pdata; now rewrite Htag).
      rewrite (bind_Ok _ _ w w snap) by reflexivity.
      apply bind_Err. unfold lift, map_find. now rewrite Hnone, Hdebug.
    + intros [k Hk]. unfold boltzmann.
      rewrite (bind_Ok _ _ w w (m_pdata w)) by reflexivity.
      rewrite (bind_Ok _ _ w w tag)
        by (apply lift_Ok; unfold at_index; fold pdata; now rewrite Htag).
      rewrite (bind_Ok _ _ w w snap) by reflexivity.
      rewrite (bind_Ok _ _ w w k)
        by (apply lift_Ok; unfold map_find; now rewrite Hk).
      unfold bind, lift, set_pos, set_orientation, ret.
      destruct (decide _); [simpl|done].
      destruct (decide _); [simpl|done].
      pose proof (getEnergy_no_assert callback) as Hne.
      match goal with
      | |- context [getEnergy callback ?s w] =>
          specialize (Hne s w) as Hold;
          destruct (getEnergy callback s w) as [[[energy_old snap3] w3]|f|]
      end; [|congruence|done].
      destruct (decide _); [simpl|done].
      destruct (decide _); [simpl|done].
      match goal with
      | |- context [getEnergy callback ?s w3] =>
          specialize (Hne s w3) as Hnew;
          destruct (getEnergy callback s w3) as [[[energy_new snap4] w4]|f|]
      end; [done|congruence|done].
  - intros position_old_arg orientation_old_arg box_old_arg
      energy_new snap1 w1 Hnew.
    rewrite (calculateBoltzmannFactor_unfold _ _ _ _ _ _ _ _ Hnew).
    fold pdata. split.
    + intros Hdebug Hwf (i & tag & [Hi Htag] & Hnone).
      destruct (turns_cases (getTags pdata) position_old_arg
                  orientation_old_arg (getN pdata) (getN pdata)
                  (set_global_box snap1 box_old_arg) Hdebug Hwf (le_n _))
        as [[_ ->] | [Hall _]]; [done|].
      destruct (Hall i tag Hi Htag) as [k Hk]. simpl in Hk. congruence.
    + intros Hall.
      pose proof (turns_no_assert (getTags pdata) position_old_arg
                    orientation_old_arg (getN pdata)
                    (set_global_box snap1 box_old_arg)) as Hno.
      destruct (turns _ _ _ _ _) as [snap2|f|].
      * unfold bind, ret.
        pose proof (getEnergy_no_assert callback snap2 w1) as Hne.
        destruct (getEnergy callback snap2 w1)
          as [[[energy_old snap3] w3]|f|]; [done|congruence|done].
      * intros [= ->]. apply Hno; [|done].
        intros i tag Hi Htag. apply (Hall i). now split.
      * done.
Qed.

End ConsistencyFault.

(** ** More on the member functions *)

Section ParticleMoveMore.
Context {hoomd_types : HoomdTypes} {hoomd_ops : HoomdOps}.
Context {Shape : Type} {shape_ops : Shape.ops Shape}.

Lemma keeps_store_ret {A} (a : A) : keeps_store (ret a).
Proof. intros w a' w' [= _ <-]. reflexivity. Qed.

Lemma keeps_store_lift {A} (r : Result A) : keeps_store (lift r).
Proof. intros w a w' Hl. apply lift_inv in Hl as [_ ->]. reflexivity. Qed.

Lemma keeps_store_bind {A B} (m : M A) (k : A -> M B) :
  keeps_store m -> (forall a, keeps_store (k a)) -> keeps_store (bind m k).
Proof.
  intros Hm Hk w b w' Hb.
  apply bind_inv in Hb as (a & w1 & Hma & Hkb).
  apply Hm in Hma. apply Hk in Hkb. unfold same_store in *. congruence.
Qed.

Lemma keeps_store_get_pdata : keeps_store get_pdata.
Proof. intros w a w' [= _ <-]. reflexivity. Qed.

Lemma keeps_store_takeSnapshot : keeps_store takeSnapshot.
Proof. intros w a w' [= _ <-]. reflexivity. Qed.

Lemma keeps_store_getEnergy (callback : object) (snap : SnapshotSystemData) :
  keeps_store (getEnergy callback snap).
Proof. intros w a w'. apply getEnergy_same_store. Qed.

Ltac keeps_store :=
  repeat first
    [ apply keeps_store_ret
    | apply keeps_store_lift
    | apply keeps_store_get_pdata
    | apply keeps_store_takeSnapshot
    | apply keeps_store_getEnergy
    | apply keeps_store_bind; [|intros ?]
    | match goal with
      | a : (_ * _)%type |- _ => destruct a
      end ].

Lemma keeps_store_boltzmann (callback : object) (index : nat)
    (position_old position_new : vec3) (shape_old shape_new : Shape) :
  keeps_store (boltzmann callback index position_old shape_old
                 position_new shape_new).
Proof. unfold boltzmann. keeps_store. Qed.

(** X1. Like [boltzmann], the other member functions return with the
    live store as they found it: [accept], [calculateBoltzmannFactor]
    and [calculateBoltzmannWeight] write the snapshot and advance the
    interpreter and the stream, nothing else. *)
Theorem member_functions_keep_store (callback : object) :
  (forall index position_old position_new (shape_old shape_new : Shape) rng,
     keeps_store (accept callback index position_old shape_old
                    position_new shape_new rng)) /\
  (forall position_old_arg orientation_old_arg box_old_arg,
     keeps_store (calculateBoltzmannFactor callback position_old_arg
                    orientation_old_arg box_old_arg)) /\
  (forall timestep,
     keeps_store (calculateBoltzmannWeight callback timestep)).
Proof.
  split; [|split].
  - intros. unfold accept.
    apply keeps_store_bind; [apply keeps_store_boltzmann|].
    intros boltz. destruct (Saru_s _ _ _). apply keeps_store_ret.
  - intros. unfold calculateBoltzmannFactor, update_with_old_configuration.
    keeps_store.
  - intros. unfold calculateBoltzmannWeight. keeps_store.
Qed.

(** X7. A ratio that is NaN rejects the move, whatever the draw.  So a
    move between two configurations of energy [+inf] is rejected by a
    pure field ([exp] of NaN being NaN), the move that changes nothing
    included. *)
Theorem accept_rejects_nan_ratio (callback : object) (w : World)
    (index : nat) (position_old position_new : vec3)
    (shape_old shape_new : Shape) (rng : Saru) :
  let draw := Saru_s 0%float 1%float rng in
  (forall w',
     boltzmann callback index position_old shape_old
       position_new shape_new w = Ok (nan, w') ->
     accept callback index position_old shape_old
       position_new shape_new rng w = Ok ((false, snd draw), w')) /\
  (forall E tag k,
     let snap := SystemDefinition_takeSnapshot (m_pdata w) in
     pure_field callback E ->
     getTags (m_pdata w) !! index = Some tag ->
     resolves snap tag k ->
     E (with_particle snap k position_old (Shape.orientation shape_old)) =
       infinity ->
     E (with_particle snap k position_new (Shape.orientation shape_new)) =
       infinity ->
     exp nan = nan ->
     accept callback index position_old shape_old
       position_new shape_new rng w = Ok ((false, snd draw), w)).
Proof.
  intros draw.
  assert (forall w',
            boltzmann callback index position_old shape_old
              position_new shape_new w = Ok (nan, w') ->
            accept callback index position_old shape_old
              position_new shape_new rng w = Ok ((false, snd draw), w'))
    as Hnan.
  { intros w' Hb. unfold accept. rewrite (bind_Ok _ _ w w' _ Hb).
    fold draw. destruct draw as [u rng']. unfold ret. simpl.
    now rewrite ScalarFacts.ltb_nan_r. }
  split; [exact Hnan|].
  intros E tag k snap HE Htag Hres Hold Hnew Hexp. apply Hnan.
  rewrite (boltzmann_pure callback E _ _ tag k) by assumption.
  fold snap. rewrite Hold, Hnew.
  change (- infinity + infinity)%float with nan. now rewrite Hexp.
Qed.

(** X10. A ratio of at least 1 accepts the move for every draw below 1:
    a move that does not raise the energy is never rejected. *)
Theorem accept_downhill (callback : object) (w w' : World)
    (index : nat) (position_old position_new : vec3)
    (shape_old shape_new : Shape) (rng : Saru) (boltz : Scalar) :
  let draw := Saru_s 0%float 1%float rng in
  boltzmann callback index position_old shape_old position_new shape_new w =
    Ok (boltz, w') ->
  (1 <=? boltz)%float = true ->
  (fst draw <? 1)%float = true ->
  accept callback index position_old shape_old position_new shape_new rng w =
    Ok ((true, snd draw), w').
Proof.
  intros draw Hb Hge Hu. unfold accept. rewrite (bind_Ok _ _ w w' _ Hb).
  fold draw. destruct draw as [u rng']. unfold ret. simpl in Hu |- *.
  now rewrite (ScalarFacts.lt_le_trans u 1%float boltz Hu Hge).
Qed.

(** X9. For a pure field the reverse move has the negated exponent: if
    the move from old to new has ratio [exp x], with [x] the old energy
    minus the new, the move from new to old has ratio [exp (- x)]; when
    the two energies cancel both exponents are [+0]. *)
Theorem boltzmann_reverse_move (callback : object)
    (E : SnapshotSystemData -> Scalar) (w : World) (index tag k : nat)
    (position_old position_new : vec3) (shape_old shape_new : Shape) :
  let snap := SystemDefinition_takeSnapshot (m_pdata w) in
  let x :=
    (E (with_particle snap k position_old (Shape.orientation shape_old)) -
     E (with_particle snap k position_new (Shape.orientation shape_new)))%float
  in
  pure_field callback E ->
  getTags (m_pdata w) !! index = Some tag ->
  resolves snap tag k ->
  boltzmann callback index position_old shape_old position_new shape_new w =
    Ok (exp x, w) /\
  (boltzmann callback index position_new shape_new position_old shape_old w =
     Ok (exp (- x)%float, w) \/
   (x = 0%float /\
    boltzmann callback index position_new shape_new position_old shape_old w =
      Ok (exp 0%float, w))).
Proof.
  intros snap x HE Htag Hres.
  rewrite !(boltzmann_pure callback E _ _ tag k) by assumption.
  fold snap. rewrite !ScalarFacts.neg_add_is_sub. fold x.
  split; [reflexivity|].
  destruct (ScalarFacts.sub_antisym
              (E (with_particle snap k position_old
                    (Shape.orientation shape_old)))
              (E (with_particle snap k position_new
                    (Shape.orientation shape_new))))
    as [-> | [Hx ->]].
  - left. reflexivity.
  - right. split; [exact Hx | reflexivity].
Qed.

(** X12. A move that leaves a finite energy of a pure field unchanged has
    ratio 1 ([exp 0] being 1) and is accepted by every draw below 1: the
    field does not hinder the moves it does not see. *)
Theorem accept_unchanged_energy (callback : object)
    (E : SnapshotSystemData -> Scalar) (w : World) (index tag k : nat)
    (position_old position_new : vec3) (shape_old shape_new : Shape)
    (rng : Saru) :
  let snap := SystemDefinition_takeSnapshot (m_pdata w) in
  let draw := Saru_s 0%float 1%float rng in
  pure_field callback E ->
  getTags (m_pdata w) !! index = Some tag ->
  resolves snap tag k ->
  E (with_particle snap k position_new (Shape.orientation shape_new)) =
    E (with_particle snap k position_old (Shape.orientation shape_old)) ->
  is_finite
    (E (with_particle snap k position_old (Shape.orientation shape_old))) =
    true ->
  exp 0%float = 1%float ->
  (fst draw <? 1)%float = true ->
  boltzmann callback index position_old shape_old position_new shape_new w =
    Ok (1%float, w) /\
  accept callback index position_old shape_old position_new shape_new rng w =
    Ok ((true, snd draw), w).
Proof.
  intros snap draw HE Htag Hres Hsame Hfin Hexp Hu.
  assert (boltzmann callback index position_old shape_old
            position_new shape_new w = Ok (1%float, w)) as Hb.
  { rewrite (boltzmann_pure callback E _ _ tag k) by assumption.
    fold snap. now rewrite Hsame, ScalarFacts.neg_add_self, Hexp. }
  split; [exact Hb|].
  unfold accept. rewrite (bind_Ok _ _ w w _ Hb).
  fold draw. destruct draw as [u rng']. simpl in Hu |- *.
  unfold ret. now rewrite Hu.
Qed.

End ParticleMoveMore.

Section BoxMoveMore.
Context {hoomd_types : HoomdTypes} {hoomd_ops : HoomdOps}.
Context {Shape : Type} {shape_ops : Shape.ops Shape}.

(** The loop runs through when the first [n] tags resolve and the first
    [n] old values are there. *)
Lemma turns_total (h_tag : list nat)
    (position_old_arg orientation_old_arg : list Scalar4)
    (n : nat) (snap : SnapshotSystemData) :
  (forall i, i < n ->
     exists tag k, h_tag !! i = Some tag /\ resolves snap tag k) ->
  n <= length position_old_arg -> n <= length orientation_old_arg ->
  exists snap',
    turns h_tag position_old_arg orientation_old_arg n snap = Ok snap'.
Proof.
  intros Hcov. induction n as [|n IH]; intros Hlp Hlq; [now exists snap|].
  destruct IH as [snap' Hturns]; [intros i Hi; apply Hcov; lia | lia..|].
  rewrite turns_S, Hturns. simpl.
  apply turns_inv in Hturns as ((_ & Hmap & _ & _ & Hp & Hq) & _).
  destruct (Hcov n) as (tag & k & Htag & Hk & Hkp & Hkq); [lia|].
  destruct (lookup_lt_is_Some_2 position_old_arg n) as [p Hpn]; [lia|].
  destruct (lookup_lt_is_Some_2 orientation_old_arg n) as [q Hqn]; [lia|].
  eexists. apply (restore_particle_Ok _ _ _ n tag k p q); try done.
  - now rewrite Hmap.
  - now rewrite Hp.
  - now rewrite Hq.
Qed.

(** The loop reads the first [n] entries of the two arrays only. *)
Lemma turns_ext (h_tag : list nat) (po po' oo oo' : list Scalar4)
    (n : nat) (snap : SnapshotSystemData) :
  take n po = take n po' -> take n oo = take n oo' ->
  turns h_tag po oo n snap = turns h_tag po' oo' n snap.
Proof.
  intros Hpo Hoo.
  assert (forall i, i < n -> po !! i = po' !! i /\ oo !! i = oo' !! i)
    as Hsame.
  { intros i Hi. rewrite <- (lookup_take_lt po n i),
      <- (lookup_take_lt po' n i), <- (lookup_take_lt oo n i),
      <- (lookup_take_lt oo' n i) by done.
    now rewrite Hpo, Hoo. }
  clear Hpo Hoo. induction n as [|n IH]; [reflexivity|].
  rewrite !turns_S, IH by (intros i Hi; apply Hsame; lia). clear IH.
  destruct (turns h_tag po' oo' n snap) as [snap1|f|];
    [simpl|reflexivity..].
  destruct (Hsame n) as [Hp Hq]; [lia|].
  unfold restore_particle, at_index. now rewrite Hp, Hq.
Qed.

(** Writing into a slot what it holds changes nothing. *)
Lemma with_particle_same (snap : SnapshotSystemData) (k : nat)
    (p : vec3) (q : quat) :
  pos (particle_data snap) !! k = Some p ->
  orientation (particle_data snap) !! k = Some q ->
  with_particle snap k p q = snap.
Proof.
  destruct snap as [box [ps qs pf] m sf]. unfold with_particle. simpl.
  intros Hp Hq. now rewrite !list_insert_id.
Qed.

(** The loop over particles that are in place leaves the snapshot. *)
Lemma turns_in_place (h_tag : list nat)
    (position_old_arg orientation_old_arg : list Scalar4)
    (n : nat) (snap : SnapshotSystemData) :
  (forall i, i < n ->
     in_place h_tag position_old_arg orientation_old_arg snap i) ->
  turns h_tag position_old_arg orientation_old_arg n snap = Ok snap.
Proof.
  induction n as [|n IH]; intros Hin; [reflexivity|].
  rewrite turns_S, IH by (intros i Hi; apply Hin; lia). simpl.
  destruct (Hin n) as (tag & k & p & q & Htag & Hk & Hp & Hq & Hkp & Hkq);
    [lia|].
  rewrite (restore_particle_Ok _ _ _ n tag k p q)
    by (try done; eapply lookup_lt_Some; eassumption).
  now rewrite with_particle_same.
Qed.

(** A box move whose first evaluation raises is that fault. *)
Lemma calculateBoltzmannFactor_first_fault (callback : object)
    (position_old_arg orientation_old_arg : list Scalar4)
    (box_old_arg : BoxDim) (w : World) (f : Fault) :
  getEnergy callback (SystemDefinition_takeSnapshot (m_pdata w)) w = Err f ->
  calculateBoltzmannFactor callback position_old_arg orientation_old_arg
    box_old_arg w = Err f.
Proof.
  intros Hnew. unfold calculateBoltzmannFactor.
  rewrite (bind_Ok _ _ w w _) by reflexivity.
  now rewrite (bind_Err _ _ w f Hnew).
Qed.

(** X2. With no callback a box move has ratio [exp 0], whatever the old
    box and the old positions, as long as the local particles resolve and
    their old values are supplied; and the weight of every configuration
    is [exp (-0)].  The interpreter is never entered. *)
Theorem absent_callback_box_move (w : World)
    (position_old_arg orientation_old_arg : list Scalar4)
    (box_old_arg : BoxDim) (timestep : nat) :
  let pdata := m_pdata w in
  covers (SystemDefinition_takeSnapshot pdata) pdata ->
  getN pdata <= length position_old_arg ->
  getN pdata <= length orientation_old_arg ->
  calculateBoltzmannFactor none position_old_arg orientation_old_arg
    box_old_arg w = Ok (exp 0%float, w) /\
  calculateBoltzmannWeight none timestep w = Ok (exp (- 0)%float, w).
Proof.
  intros pdata Hcov Hlp Hlq. split; [|reflexivity].
  rewrite (calculateBoltzmannFactor_unfold none _ _ _ w w 0%float _
             (getEnergy_none _ w)).
  destruct (turns_total (getTags pdata) position_old_arg
              orientation_old_arg (getN pdata)
              (set_global_box (SystemDefinition_takeSnapshot pdata)
                 box_old_arg) Hcov Hlp Hlq) as [snap2 Hturns].
  fold pdata. now rewrite Hturns.
Qed.

(** X5. A box move reads the first [N] entries of the two old arrays and
    no more: two calls whose arrays agree on those entries do the same. *)
Theorem calculateBoltzmannFactor_reads_first_N (callback : object)
    (po po' oo oo' : list Scalar4) (box_old_arg : BoxDim) (w : World) :
  let N := getN (m_pdata w) in
  take N po = take N po' -> take N oo = take N oo' ->
  calculateBoltzmannFactor callback po oo box_old_arg w =
    calculateBoltzmannFactor callback po' oo' box_old_arg w.
Proof.
  intros N Hpo Hoo.
  destruct (getEnergy callback (SystemDefinition_takeSnapshot (m_pdata w)) w)
    as [[[energy_new snap1] w1]|f|] eqn:Hnew.
  - rewrite !(calculateBoltzmannFactor_unfold _ _ _ _ _ _ _ _ Hnew).
    now rewrite (turns_ext _ po po' oo oo').
  - now rewrite !(calculateBoltzmannFactor_first_fault _ _ _ _ _ _ Hnew).
  - unfold calculateBoltzmannFactor, bind, takeSnapshot. cbv beta iota.
    now rewrite Hnew.
Qed.

(** X6. The degenerate box move.  When the old box is the box of the
    snapshot and every local particle is in place, the update leaves the
    snapshot as it is, and a pure field of finite energy gives ratio
    [exp 0]. *)
Theorem calculateBoltzmannFactor_nothing_changed (callback : object)
    (E : SnapshotSystemData -> Scalar)
    (position_old_arg orientation_old_arg : list Scalar4) (w : World) :
  let pdata := m_pdata w in
  let snap := SystemDefinition_takeSnapshot pdata in
  pure_field callback E ->
  (forall i, i < getN pdata ->
     in_place (getTags pdata) position_old_arg orientation_old_arg snap i) ->
  is_finite (E snap) = true ->
  update_with_old_configuration position_old_arg orientation_old_arg
    (global_box snap) snap w = Ok (snap, w) /\
  calculateBoltzmannFactor callback position_old_arg orientation_old_arg
    (global_box snap) w = Ok (exp 0%float, w).
Proof.
  intros pdata snap HE Hin Hfin.
  assert (set_global_box snap (global_box snap) = snap) as Hbox
    by now destruct snap.
  assert (turns (getTags pdata) position_old_arg orientation_old_arg
            (getN pdata) (set_global_box snap (global_box snap)) = Ok snap)
    as Hturns.
  { rewrite Hbox. now apply turns_in_place. }
  split.
  - rewrite update_with_old_configuration_unfold. fold pdata.
    now rewrite Hturns.
  - rewrite (calculateBoltzmannFactor_unfold _ _ _ _ w w (E snap) snap
               (HE snap w)).
    fold pdata snap. rewrite Hturns.
    rewrite (bind_Ok _ _ w w _ (HE snap w)).
    unfold ret. now rewrite ScalarFacts.neg_add_self.
Qed.

(** X8. The constructor takes any object.  With one that is neither
    [None] nor callable every evaluation of the field raises: the weight
    and the box move always, the particle move as soon as the particle
    resolves. *)
Theorem not_callable_always_raises (callback : object) (w : World) :
  not_callable callback ->
  (forall snap, getEnergy callback snap w = Err PythonError) /\
  (forall timestep,
     calculateBoltzmannWeight callback timestep w = Err PythonError) /\
  (forall position_old_arg orientation_old_arg box_old_arg,
     calculateBoltzmannFactor callback position_old_arg
       orientation_old_arg box_old_arg w = Err PythonError) /\
  (forall index tag k position_old position_new
          (shape_old shape_new : Shape),
     getTags (m_pdata w) !! index = Some tag ->
     resolves (SystemDefinition_takeSnapshot (m_pdata w)) tag k ->
     boltzmann callback index position_old shape_old
       position_new shape_new w = Err PythonError).
Proof.
  intros Hnc.
  assert (forall snap w0, getEnergy callback snap w0 = Err PythonError)
    as Hraise.
  { intros snap w0. destruct callback; try contradiction; reflexivity. }
  split; [intros; apply Hraise|]. split; [|split].
  - intros. unfold calculateBoltzmannWeight.
    rewrite (bind_Ok _ _ w w _) by reflexivity.
    now rewrite (bind_Err _ _ w _ (Hraise _ w)).
  - intros. apply calculateBoltzmannFactor_first_fault, Hraise.
  - intros index tag k position_old position_new shape_old shape_new
      Htag Hres.
    rewrite (boltzmann_unfold _ _ _ tag k) by assumption.
    now rewrite (bind_Err _ _ w _ (Hraise _ w)).
Qed.

(** X11. Python is the only way [getEnergy] and the weight can fail:
    neither has an [assert] or an unchecked access, so neither is ever
    undefined and a fault of either is a Python error; and the weight
    fails exactly when [getEnergy] on the fresh snapshot does, with the
    same fault. *)
Theorem weight_fails_in_python_only (callback : object) (w : World)
    (timestep : nat) :
  let snap := SystemDefinition_takeSnapshot (m_pdata w) in
  (forall snap0,
     getEnergy callback snap0 w <> Undefined /\
     forall f, getEnergy callback snap0 w = Err f -> f = PythonError) /\
  calculateBoltzmannWeight callback timestep w <> Undefined /\
  (forall f,
     calculateBoltzmannWeight callback timestep w = Err f <->
     getEnergy callback snap w = Err f) /\
  (forall f,
     calculateBoltzmannWeight callback timestep w = Err f ->
     f = PythonError).
Proof.
  intros snap.
  assert (forall snap0,
            getEnergy callback snap0 w <> Undefined /\
            forall f, getEnergy callback snap0 w = Err f -> f = PythonError)
    as Hpy.
  { intros snap0. unfold getEnergy, bind, call, lift, ret, cast_Scalar.
    destruct callback as [| | |code]; simpl;
      try (split; [discriminate | congruence]).
    destruct (code snap0 (interp w)) as [[[rv snap'] i']|];
      [|split; [discriminate | congruence]].
    destruct rv; simpl; (split; [discriminate | congruence]). }
  assert (forall f,
            calculateBoltzmannWeight callback timestep w = Err f <->
            getEnergy callback snap w = Err f) as Hiff.
  { intros f. unfold calculateBoltzmannWeight.
    rewrite (bind_Ok _ _ w w snap) by reflexivity.
    unfold bind, ret.
    destruct (getEnergy callback snap w) as [[[energy snap'] w']|f'|];
      split; congruence. }
  split; [exact Hpy|]. split; [|split; [exact Hiff|]].
  - unfold calculateBoltzmannWeight.
    rewrite (bind_Ok _ _ w w snap) by reflexivity.
    unfold bind, ret. destruct (Hpy snap) as [Hdef _].
    now destruct (getEnergy callback snap w) as [[[energy snap'] w']|f'|].
  - intros f Hf. apply Hiff in Hf. now apply (Hpy snap).
Qed.

End BoxMoveMore.

(** ** The properties at work on the small instance *)

Section Demonstrations.
Import Demo.

Lemma pure_field_spring : pure_field spring spring_energy.
Proof. intros snap [pdata i]. reflexivity. Qed.

Lemma pure_field_wall : pure_field wall (fun _ => infinity).
Proof. intros snap [pdata i]. reflexivity. Qed.

Lemma resolves_tag_1 : resolves (snapshot_of store) 1 0.
Proof. split; [reflexivity | split; simpl; lia]. Defined.

Lemma resolves_tag_0 : resolves (snapshot_of store) 0 1.
Proof. split; [reflexivity | split; simpl; lia]. Defined.

Lemma covers_store (snap : SnapshotSystemData) :
  map snap = map (snapshot_of store) ->
  length (pos (particle_data snap)) = 2 ->
  length (orientation (particle_data snap)) = 2 ->
  covers snap store.
Proof.
  intros Hmap Hp Hq i Hi. simpl in Hi.
  destruct i as [|[|i]]; [exists 1, 0 | exists 0, 1 | lia];
    (split; [reflexivity|]); unfold resolves; rewrite Hmap, Hp, Hq;
    (split; [reflexivity | split; lia]).
Defined.

(** The scenario of a lattice restraint: moving the particle of tag 1 from
    the plane to distance 1 costs energy 2. *)
Lemma boltzmann_old_then_new_witness :
  boltzmann spring 0 p0 q0 p1 q0 world = Ok (exp (0 - 2)%float, world).
Proof.
  eapply (boltzmann_old_then_new spring world world world 0 1 0).
  - reflexivity.
  - exact resolves_tag_1.
  - reflexivity.
  - simpl; lia.
  - simpl; lia.
  - reflexivity.
Defined.

(** The midpoint draw 0.5 is not below [exp (-2)]: the move is rejected,
    and the stream has advanced from 7 to 8; a callback that raises
    makes [accept] fault as [boltzmann] does. *)
Lemma accept_iff_draw_below_ratio_witness :
  accept spring 0 p0 q0 p1 q0 7 world = Ok ((false, 8), world) /\
  accept raising 0 p0 q0 p1 q0 7 world = Err PythonError.
Proof.
  split.
  - exact (proj1 (accept_iff_draw_below_ratio spring world 0 p0 p1 q0 q0 7)
             (exp (0 - 2)%float) world eq_refl).
  - exact (proj2 (accept_iff_draw_below_ratio raising world 0 p0 p1 q0 q0 7)
             PythonError eq_refl).
Defined.

(** Undoing the swap of the two particles, in the old box. *)
Lemma calculateBoltzmannFactor_old_config_witness :
  calculateBoltzmannFactor spring position_old orientation_old box_old world =
    Ok (exp (0 - 2)%float, world).
Proof.
  destruct (calculateBoltzmannFactor_old_config spring position_old
              orientation_old box_old world world 2%float
              (snapshot_of store))
    as (snap2 & Hup & _ & _ & _ & Hfactor).
  - reflexivity.
  - apply covers_store; reflexivity.
  - simpl; lia.
  - simpl; lia.
  - injection Hup as <-. apply (Hfactor 0%float restored world).
    reflexivity.
Defined.

(** The five ways through [getEnergy]. *)
Lemma getEnergy_two_level_null_check_witness :
  getEnergy none (snapshot_of store) world =
    Ok ((0%float, snapshot_of store), world) /\
  getEnergy raising (snapshot_of store) world = Err PythonError /\
  getEnergy silent (snapshot_of store) world =
    Ok ((0%float, snapshot_of store), world) /\
  getEnergy spring (snapshot_of store) world =
    Ok ((2%float, snapshot_of store), world) /\
  getEnergy wordy (snapshot_of store) world = Err PythonError.
Proof.
  pose proof (fun cb =>
    getEnergy_two_level_null_check cb (snapshot_of store) world) as T.
  split; [|split; [|split; [|split]]].
  - apply (proj1 (T none)). reflexivity.
  - apply (proj1 (proj2 (T raising) eq_refl)). reflexivity.
  - apply (proj1 (proj2 (proj2 (T silent) eq_refl)
                    none (snapshot_of store) world eq_refl)).
    reflexivity.
  - apply (proj2 (proj2 (proj2 (T spring) eq_refl)
                    (py_float 2%float) (snapshot_of store) world eq_refl)).
    reflexivity.
  - apply (proj2 (proj2 (proj2 (T wordy) eq_refl)
                    (py_str "high") (snapshot_of store) world eq_refl)).
    reflexivity.
Defined.

(** With the assertions in, a tag outside the map stops both calls at the
    [assert]; with the tags in the map the [assert] stops neither. *)
Lemma absent_tag_fails_fast_witness :
  boltzmann spring 1 p0 q0 p1 q0 stale_world = Err AssertionFailed /\
  boltzmann spring 0 p0 q0 p1 q0 world <> Err AssertionFailed /\
  calculateBoltzmannFactor forgetful position_old orientation_old box_old
    world = Err AssertionFailed /\
  calculateBoltzmannFactor spring position_old orientation_old box_old
    world <> Err AssertionFailed.
Proof.
  split; [|split; [|split]].
  - apply (proj1 (proj1 (absent_tag_fails_fast (hoomd_ops := ops)
                           (Shape := quat) spring stale_world)
                    1 7 p0 p1 q0 q0 eq_refl)).
    + reflexivity.
    + reflexivity.
  - apply (proj2 (proj1 (absent_tag_fails_fast (hoomd_ops := ops)
                           (Shape := quat) spring world)
                    0 1 p0 p1 q0 q0 eq_refl)).
    exists 0. reflexivity.
  - assert (getEnergy forgetful
              (SystemDefinition_takeSnapshot (m_pdata world)) world =
            Ok ((0%float,
                 make_snapshot (global_box (snapshot_of store))
                   (particle_data (snapshot_of store)) ∅ tt), world))
      as Hnew by reflexivity.
    apply (proj1 (proj2 (absent_tag_fails_fast (hoomd_ops := ops)
                           (Shape := quat) forgetful world)
                    position_old orientation_old box_old _ _ _ Hnew)).
    + reflexivity.
    + split; [simpl; lia | split; [simpl; lia | split; [simpl; lia|]]].
      intros tag k Hk. simpl in Hk. rewrite lookup_empty in Hk.
      discriminate.
    + exists 0, 1. split; [split; [simpl; lia | reflexivity]|].
      apply lookup_empty.
  - assert (getEnergy spring
              (SystemDefinition_takeSnapshot (m_pdata world)) world =
            Ok ((2%float, snapshot_of store), world))
      as Hnew by reflexivity.
    apply (proj2 (proj2 (absent_tag_fails_fast (hoomd_ops := ops)
                           (Shape := quat) spring world)
                    position_old orientation_old box_old _ _ _ Hnew)).
    intros i tag [Hi Htag]. simpl in Hi.
    destruct i as [|[|i]]; [| |lia]; injection Htag as <-;
      eexists; reflexivity.
Defined.

(** C5, as stated, fails.  In a build with [NDEBUG] the [assert] is
    compiled out: the tag 7 of the particle at index 1 is not in the map
    of the snapshot, and [boltzmann] does not abort, it goes on to
    [snap_it->second] at [end()]; likewise the box move, once the
    callback has emptied the map. *)
Lemma absent_tag_without_assert :
  getTags (m_pdata stale_world) !! 1 = Some 7 /\
  map (snapshot_of (m_pdata stale_world)) !! 7 = None /\
  boltzmann (hoomd_ops := release_ops) spring 1 p0 q0 p1 q0 stale_world =
    Undefined /\
  boltzmann (hoomd_ops := release_ops) spring 1 p0 q0 p1 q0 stale_world <>
    Err AssertionFailed /\
  calculateBoltzmannFactor (hoomd_ops := release_ops) forgetful
    position_old orientation_old box_old world = Undefined /\
  calculateBoltzmannFactor (hoomd_ops := release_ops) forgetful
    position_old orientation_old box_old world <> Err AssertionFailed.
Proof.
  split; [reflexivity|]. split; [reflexivity|].
  split; [reflexivity|]. split; [discriminate|].
  split; [reflexivity | discriminate].
Qed.

(** The update of the snapshot of [store]: the map is the same, and the
    box is the old one. *)
Lemma update_with_old_configuration_frame_witness :
  map restored = map (snapshot_of store) /\
  global_box restored = box_old /\
  length (pos (particle_data restored)) = 2.
Proof.
  destruct (update_with_old_configuration_frame (hoomd_ops := ops)
              position_old
              orientation_old box_old (snapshot_of store) restored
              world world eq_refl)
    as (_ & Hbox & Hmap & _ & _ & Hlen & _).
  split; [exact Hmap | split; [exact Hbox | exact Hlen]].
Defined.

(** Two evaluations by a callback that counts them: the interpreter has
    moved on, the store has not. *)
Lemma boltzmann_leaves_store_witness :
  m_pdata (make_world store 2) = m_pdata world /\
  getPositions (m_pdata (make_world store 2)) = getPositions (m_pdata world) /\
  getOrientationArray (m_pdata (make_world store 2)) =
    getOrientationArray (m_pdata world).
Proof.
  apply (boltzmann_leaves_store counting world (make_world store 2)
           0 p0 p1 q0 q0 1%float).
  reflexivity.
Defined.

(** The move that changes nothing, under the restraint. *)
Lemma boltzmann_noop_finite_witness :
  boltzmann spring 0 p0 q0 p0 q0 world = Ok (1%float, world).
Proof.
  apply (proj2 (boltzmann_noop_finite (hoomd_ops := ops)
                  spring spring_energy world 0 1 0 p0 q0
                  pure_field_spring eq_refl resolves_tag_1 eq_refl)).
  reflexivity.
Defined.

(** C8, as stated, fails.  The wall is a pure field, the tag of the
    particle resolves, and the move changes nothing; but the energy is
    [+inf] before and after, [-inf + inf] is NaN, and the ratio is NaN,
    not 1. *)
Lemma boltzmann_noop_infinite_energy :
  pure_field wall (fun _ => infinity) /\
  getTags (m_pdata world) !! 0 = Some 1 /\
  resolves (SystemDefinition_takeSnapshot (m_pdata world)) 1 0 /\
  exp 0%float = 1%float /\
  boltzmann wall 0 p0 q0 p0 q0 world = Ok (nan, world) /\
  boltzmann wall 0 p0 q0 p0 q0 world <> Ok (1%float, world).
Proof.
  split; [exact pure_field_wall|].
  split; [reflexivity|]. split; [exact resolves_tag_1|].
  split; [reflexivity|]. split; [reflexivity|].
  intros Heq.
  apply (f_equal (fun r : Result (Scalar * World) =>
                    match r with
                    | Ok (boltz, _) => is_nan boltz
                    | _ => false
                    end)) in Heq.
  vm_compute in Heq. discriminate Heq.
Qed.

(** The weight of the current configuration, at two timesteps. *)
Lemma calculateBoltzmannWeight_exp_minus_energy_witness :
  calculateBoltzmannWeight spring 3 world = Ok (exp (- 2)%float, world) /\
  calculateBoltzmannWeight spring 4 world =
    calculateBoltzmannWeight spring 3 world.
Proof.
  destruct (calculateBoltzmannWeight_exp_minus_energy spring world 3 4)
    as (Hsame & Hgen & Hpure).
  split; [|exact Hsame].
  apply (Hgen 2%float (snapshot_of store) world). reflexivity.
Defined.

(** No callback: ratio 1, and the midpoint draw is accepted. *)
Lemma absent_callback_accepts_witness :
  boltzmann none 0 p0 q0 p1 q0 world = Ok (1%float, world) /\
  accept none 0 p0 q0 p1 q0 7 world = Ok ((true, 8), world).
Proof.
  exact (absent_callback_accepts (hoomd_ops := ops) world 0 1 0 p0 p1 q0 q0 7
           eq_refl resolves_tag_1 eq_refl eq_refl).
Defined.

Lemma in_place_now (i : nat) :
  i < 2 ->
  in_place (getTags store) position_now orientation_old (snapshot_of store) i.
Proof.
  intros Hi. destruct i as [|[|i]]; [| |lia].
  - exists 1, 0, unit_x, identity. repeat split.
  - exists 0, 1, origin, identity. repeat split.
Defined.

(** A box move with a callback that counts: two calls, the store as
    before. *)
Lemma member_functions_keep_store_witness :
  same_store world (make_world store 2).
Proof.
  eapply (proj1 (proj2 (member_functions_keep_store (hoomd_ops := ops)
                          (Shape := quat) counting))
            position_old orientation_old box_old world).
  reflexivity.
Defined.

Lemma absent_callback_box_move_witness :
  calculateBoltzmannFactor none position_old orientation_old box_old world =
    Ok (1%float, world) /\
  calculateBoltzmannWeight none 3 world = Ok (1%float, world).
Proof.
  apply (absent_callback_box_move (hoomd_ops := ops) world
           position_old orientation_old box_old 3).
  - apply covers_store; reflexivity.
  - simpl; lia.
  - simpl; lia.
Defined.

(** Entries after the first two are never read. *)
Lemma calculateBoltzmannFactor_reads_first_N_witness :
  calculateBoltzmannFactor spring position_old orientation_old box_old world =
    calculateBoltzmannFactor spring (position_old ++ [unit_x])
      (orientation_old ++ [origin]) box_old world.
Proof.
  apply (calculateBoltzmannFactor_reads_first_N (hoomd_ops := ops));
    reflexivity.
Defined.

(** The box and the positions that the snapshot already has. *)
Lemma calculateBoltzmannFactor_nothing_changed_witness :
  calculateBoltzmannFactor spring position_now orientation_old 10%float
    world = Ok (1%float, world).
Proof.
  apply (calculateBoltzmannFactor_nothing_changed (hoomd_ops := ops)
           spring spring_energy position_now orientation_old world
           pure_field_spring in_place_now eq_refl).
Defined.

(** The wall: energy [+inf] before and after, ratio NaN, rejected. *)
Lemma accept_rejects_nan_ratio_witness :
  accept wall 0 p0 q0 p1 q0 7 world = Ok ((false, 8), world).
Proof.
  exact (proj2 (accept_rejects_nan_ratio (hoomd_ops := ops)
                  wall world 0 p0 p1 q0 q0 7)
           (fun _ => infinity) 1 0 pure_field_wall eq_refl resolves_tag_1
           eq_refl eq_refl eq_refl).
Defined.

(** Towards the plane the ratio is [exp 2], and the draw 0.5 accepts. *)
Lemma accept_downhill_witness :
  accept spring 0 p1 q0 p0 q0 7 world = Ok ((true, 8), world).
Proof.
  eapply (accept_downhill (hoomd_ops := ops) spring world world
            0 p1 p0 q0 q0 7).
  - reflexivity.
  - reflexivity.
  - reflexivity.
Defined.

Lemma boltzmann_reverse_move_witness :
  boltzmann spring 0 p0 q0 p1 q0 world = Ok (exp (0 - 2)%float, world) /\
  (boltzmann spring 0 p1 q0 p0 q0 world =
     Ok (exp (- (0 - 2))%float, world) \/
   ((0 - 2)%float = 0%float /\
    boltzmann spring 0 p1 q0 p0 q0 world = Ok (exp 0%float, world))).
Proof.
  exact (boltzmann_reverse_move (hoomd_ops := ops) spring spring_energy
           world 0 1 0 p0 p1 q0 q0 pure_field_spring eq_refl
           resolves_tag_1).
Defined.

(** The restraint acts on slot 0; the particle of tag 0 sits in slot 1
    and moves freely. *)
Lemma accept_unchanged_energy_witness :
  boltzmann spring 1 p0 q0 p1 q0 world = Ok (1%float, world) /\
  accept spring 1 p0 q0 p1 q0 7 world = Ok ((true, 8), world).
Proof.
  apply (accept_unchanged_energy (hoomd_ops := ops) spring spring_energy
           world 1 0 1 p0 p1 q0 q0 7 pure_field_spring eq_refl
           resolves_tag_0).
  - vm_compute. reflexivity.
  - vm_compute. reflexivity.
  - vm_compute. reflexivity.
  - vm_compute. reflexivity.
Defined.

Lemma not_callable_always_raises_witness :
  getEnergy number (snapshot_of store) world = Err PythonError /\
  calculateBoltzmannWeight number 3 world = Err PythonError /\
  calculateBoltzmannFactor number position_old orientation_old box_old
    world = Err PythonError /\
  boltzmann number 0 p0 q0 p1 q0 world = Err PythonError.
Proof.
  destruct (not_callable_always_raises (hoomd_ops := ops) (Shape := quat)
              number world I) as (Hget & Hweight & Hfactor & Hmove).
  split; [apply Hget|]. split; [apply Hweight|]. split; [apply Hfactor|].
  apply (Hmove 0 1 0 p0 p1 q0 q0 eq_refl resolves_tag_1).
Defined.

Lemma weight_fails_in_python_only_witness :
  calculateBoltzmannWeight wordy 3 world = Err PythonError /\
  calculateBoltzmannWeight spring 3 world <> Undefined.
Proof.
  split.
  - apply (proj1 (proj2 (proj2 (weight_fails_in_python_only
                                  (hoomd_ops := ops) wordy world 3)))
             PythonError).
    reflexivity.
  - exact (proj1 (proj2 (weight_fails_in_python_only
                           (hoomd_ops := ops) spring world 3))).
Defined.

End Demonstrations.
